(** * FlowMaster: the duplicate Swift file scanner of [analyze_project.py]

    A shallow embedding of [src/analyze_project.py] and the properties of
    its walk, grouping and report.

    The script relies on four pieces of the Python runtime, which are
    modelled here after their CPython (POSIX) behaviour:
    - [str.endswith], [posixpath.join] and [posixpath.dirname];
    - [dict], which keeps its keys in insertion order;
    - [os.walk] with its default arguments ([topdown=True], [onerror=None],
      [followlinks=False]);
    - [print], which appends its arguments and a newline to standard output. *)

From Stdlib Require Import String Ascii List Bool Arith Lia Permutation.
Import ListNotations.
Local Open Scope string_scope.
Local Open Scope list_scope.

(** ** Python strings *)

Module PyStr.

(** [s.startswith(pre)] *)
Fixpoint startswith (s pre : string) : bool :=
  match pre, s with
  | EmptyString, _ => true
  | String _ _, EmptyString => false
  | String c pre', String d s' => Ascii.eqb c d && startswith s' pre'
  end.

(** [s.endswith(suf)]: [suf] is [s] itself or a suffix of its tail. *)
Fixpoint endswith (s suf : string) : bool :=
  String.eqb s suf ||
  match s with
  | EmptyString => false
  | String _ s' => endswith s' suf
  end.

(** [c * n] for a one-character string [c] *)
Fixpoint repeat_char (c : ascii) (n : nat) : string :=
  match n with
  | O => EmptyString
  | S n' => String c (repeat_char c n')
  end.

(** [s.rfind(c) + 1]: the index just after the last [c], 0 without one. *)
Fixpoint rfind_succ (s : string) (c : ascii) : nat :=
  match s with
  | EmptyString => 0
  | String d s' =>
      match rfind_succ s' c with
      | O => if Ascii.eqb d c then 1 else 0
      | S i => S (S i)
      end
  end.

(** [s.rstrip(c)] *)
Fixpoint rstrip (s : string) (c : ascii) : string :=
  match s with
  | EmptyString => EmptyString
  | String d s' =>
      match rstrip s' c with
      | EmptyString => if Ascii.eqb d c then EmptyString else String d EmptyString
      | r => String d r
      end
  end.

End PyStr.

(** ** [posixpath] *)

Module PosixPath.

Definition sep : ascii := "/"%char.

(** [os.path.join(a, b)] *)
Definition join (a b : string) : string :=
  if PyStr.startswith b (String sep "") then b
  else if String.eqb a "" || PyStr.endswith a (String sep "") then a ++ b
  else a ++ String sep b.

(** [os.path.dirname(p)] *)
Definition dirname (p : string) : string :=
  let i := PyStr.rfind_succ p sep in
  let head := substring 0 i p in
  if negb (String.eqb head "")
     && negb (String.eqb head (PyStr.repeat_char sep (String.length head)))
  then PyStr.rstrip head sep
  else head.

(** [os.path.basename(p)]; the script does not call it, the grouping key
    is compared with it. *)
Definition basename (p : string) : string :=
  let i := PyStr.rfind_succ p sep in
  substring i (String.length p - i) p.

End PosixPath.

(** ** Insertion-ordered dictionaries from file names to lists of paths *)

Module Dict.

Definition t : Type := list (string * list string).

(** [k in d] *)
Fixpoint mem (k : string) (d : t) : bool :=
  match d with
  | [] => false
  | (k', _) :: d' => String.eqb k' k || mem k d'
  end.

(** [d[k]] *)
Fixpoint get (k : string) (d : t) : option (list string) :=
  match d with
  | [] => None
  | (k', v) :: d' => if String.eqb k' k then Some v else get k d'
  end.

(** [d[k] = v]: an existing key keeps its position, a new one goes last. *)
Fixpoint set (k : string) (v : list string) (d : t) : t :=
  match d with
  | [] => [(k, v)]
  | (k', v') :: d' =>
      if String.eqb k' k then (k', v) :: d' else (k', v') :: set k v d'
  end.

(** [d[k].append(x)]: the list stored under [k] is extended in place. *)
Fixpoint append (k : string) (x : string) (d : t) : t :=
  match d with
  | [] => []
  | (k', v) :: d' =>
      if String.eqb k' k then (k', v ++ [x]) :: d' else (k', v) :: append k x d'
  end.

Definition keys (d : t) : list string := map fst d.
Definition values (d : t) : list (list string) := map snd d.

End Dict.

(** ** The file system as [os.walk] sees it *)

(** An entry of a directory listing.  [File] stands for every entry whose
    [is_dir()] is false and is no symbolic link.  [Symlink] carries the
    text of the link and what [is_dir()] answers for it (whether it
    resolves to a directory); a link may point anywhere, also to a
    directory above itself.  A [Dir] that is not [readable] makes
    [scandir] raise [OSError] (permission denied, or gone since its parent
    was listed). *)
#[warnings="-register-all"]
Inductive node : Type :=
| File (name : string) (contents : string)
| Symlink (name : string) (target : string) (to_dir : bool)
| Dir (name : string) (readable : bool) (entries : list node).

Definition name_of (n : node) : string :=
  match n with
  | File s _ | Symlink s _ _ | Dir s _ _ => s
  end.

(** [entry.is_dir()] *)
Definition is_dir (n : node) : bool :=
  match n with
  | File _ _ => false
  | Symlink _ _ d => d
  | Dir _ _ _ => true
  end.

Definition dirs_of (entries : list node) : list string :=
  map name_of (filter is_dir entries).

Definition nondirs_of (entries : list node) : list string :=
  map name_of (filter (fun n => negb (is_dir n)) entries).

(** What one step of the walk yields: [(root, dirs, files)]. *)
Definition triple : Type := string * list string * list string.

(** [os.walk(top)] when [top] resolves to [n]: top-down, the sub-directories
    in listing order; a listing that fails is dropped without a word
    ([onerror=None]); a sub-directory that is a symbolic link is named in
    [dirs] and not entered ([followlinks=False]). *)
Fixpoint walk (top : string) (n : node) {struct n} : list triple :=
  match n with
  | Dir _ true entries =>
      (top, dirs_of entries, nondirs_of entries)
        :: flat_map (fun c => walk (PosixPath.join top (name_of c)) c) entries
  | _ => []
  end.

(** The host: what a path given to [scandir] resolves to, if anything. *)
Definition host : Type := string -> option node.

Definition os_walk (h : host) (top : string) : list triple :=
  match h top with
  | Some n => walk top n
  | None => []
  end.

(** ** Standard output *)

Definition nl : string := String (ascii_of_nat 10) "".

(** [print(s)] on the output written so far *)
Definition print (out s : string) : string := out ++ s ++ nl.

(** ** [analyze_project] *)

Definition target_suffix : string := ".swift".

(** Lines 20-23: the body of the inner loop. *)
Definition record_file (root : string) (swift_files : Dict.t) (file : string)
  : Dict.t :=
  if PyStr.endswith file target_suffix then
    let swift_files :=
      if negb (Dict.mem file swift_files)
      then Dict.set file [] swift_files
      else swift_files in
    Dict.append file (PosixPath.join root file) swift_files
  else swift_files.

(** Lines 18-23: the walk loop. *)
Definition record_triple (swift_files : Dict.t) (t : triple) : Dict.t :=
  let '(root, _, files) := t in
  fold_left (record_file root) files swift_files.

Definition scan (w : list triple) : Dict.t :=
  fold_left record_triple w [].

(** Lines 31-32 *)
Definition print_paths (out : string) (paths : list string) : string :=
  fold_left (fun out path => print out ("  - " ++ path)) paths out.

(** Lines 27-32: the body of the report loop, on the output and the flag. *)
Definition report_item (st : string * bool) (item : string * list string)
  : string * bool :=
  let '(out, has_duplicates) := st in
  let '(filename, paths) := item in
  if (1 <? List.length paths)%nat then
    (print_paths (print out (nl ++ filename ++ ":")) paths, true)
  else (out, has_duplicates).

(** [analyze_project(project_path)]: the text printed and the value
    returned. *)
Definition analyze_project (h : host) (project_path : string)
  : string * bool :=
  let pbxproj_path := PosixPath.join project_path "project.pbxproj" in
  let out := print "" ("Analyzing project file:" ++ " " ++ pbxproj_path) in
  let out := print out "" in
  let swift_files := scan (os_walk h (PosixPath.dirname project_path)) in
  let out := print out "Duplicate Swift files found:" in
  let '(out, has_duplicates) := fold_left report_item swift_files (out, false) in
  let out :=
    if negb has_duplicates
    then print out "No duplicate Swift files found."
    else out in
  (out, has_duplicates).

(** The groups the scan builds (the local [swift_files] after the walk). *)
Definition groups (h : host) (project_path : string) : Dict.t :=
  scan (os_walk h (PosixPath.dirname project_path)).

(** Lines 39-41: the command.  The value of [analyze_project] is dropped
    and the interpreter leaves with status 0 at the end of the script. *)
Definition project_path_of (argv : list string) : string :=
  if (1 <? List.length argv)%nat then nth 1 argv "" else "FlowMaster.xcodeproj".

Definition main (h : host) (argv : list string) : string * nat :=
  let project_path := project_path_of argv in
  let '(out, _) := analyze_project h project_path in
  (out, 0).

(** ** The loop inside [os.walk]

    CPython runs the walk as a loop over a stack of paths still to be
    listed: a path is popped and listed, and the sub-directories that are
    no links are pushed, the first of them on top.  A path is modelled
    together with what it resolves to; [fuel] bounds the number of
    iterations. *)

(** [is_dir and not islink(new_path)]: the sub-directories pushed on the
    stack. *)
Definition entered (n : node) : bool :=
  match n with
  | Dir _ _ _ => true
  | _ => false
  end.

Fixpoint walk_loop (fuel : nat) (stack : list (string * option node))
  : option (list triple) :=
  match fuel with
  | O => None
  | S fuel' =>
      match stack with
      | [] => Some []
      | (top, Some (Dir _ true entries)) :: stack' =>
          let pushed :=
            map (fun c => (PosixPath.join top (name_of c), Some c))
                (filter entered entries) in
          option_map (cons (top, dirs_of entries, nondirs_of entries))
                     (walk_loop fuel' (pushed ++ stack'))
      | _ :: stack' => walk_loop fuel' stack'
      end
  end.






(** ** What the scan is compared with *)

(** The files the walk can see: [lists_file top n d f] when, [top]
    resolving to [n], the directory of path [d] is reached from [top]
    through directories that can be listed and are no links, and lists the
    entry [f], which is no directory. *)
Inductive lists_file : string -> node -> string -> string -> Prop :=
| lists_here : forall top nm entries e,
    In e entries -> is_dir e = false ->
    lists_file top (Dir nm true entries) top (name_of e)
| lists_below : forall top nm entries c d f,
    In c entries ->
    lists_file (PosixPath.join top (name_of c)) c d f ->
    lists_file top (Dir nm true entries) d f.

(** The same without regard to what can be listed: every entry of the tree
    that is no directory, behind directories that are no links. *)
Inductive holds_file : string -> node -> string -> string -> Prop :=
| holds_here : forall top nm r entries e,
    In e entries -> is_dir e = false ->
    holds_file top (Dir nm r entries) top (name_of e)
| holds_below : forall top nm r entries c d f,
    In c entries ->
    holds_file (PosixPath.join top (name_of c)) c d f ->
    holds_file top (Dir nm r entries) d f.

Fixpoint all_readable (n : node) : bool :=
  match n with
  | Dir _ r entries => r && forallb all_readable entries
  | _ => true
  end.

(** Names as [scandir] gives them: not empty and without a separator. *)
Fixpoint no_sep (s : string) : bool :=
  match s with
  | EmptyString => true
  | String c s' => negb (Ascii.eqb c PosixPath.sep) && no_sep s'
  end.

Fixpoint names_ok (n : node) : bool :=
  no_sep (name_of n) &&
  match n with
  | Dir _ _ entries => forallb names_ok entries
  | _ => true
  end.

(** The tree with every directory that cannot be listed replaced by an
    empty one that can. *)
Fixpoint skip_unreadable (n : node) : node :=
  match n with
  | Dir nm true entries => Dir nm true (map skip_unreadable entries)
  | Dir nm false _ => Dir nm true []
  | _ => n
  end.

(** The tree with the contents of every file blanked. *)
Fixpoint blank (n : node) : node :=
  match n with
  | File nm _ => File nm ""
  | Symlink nm t d => Symlink nm t d
  | Dir nm r entries => Dir nm r (map blank entries)
  end.

(** The suffix-matching files of a walk in traversal order, each with the
    path the script builds for it. *)
Definition matching_of (t : triple) : list (string * string) :=
  let '(root, _, files) := t in
  map (fun file => (file, PosixPath.join root file))
      (filter (fun file => PyStr.endswith file target_suffix) files).

Definition matching (w : list triple) : list (string * string) :=
  flat_map matching_of w.

(** The paths recorded under the name [k], in the order of [l]. *)
Definition paths_named (k : string) (l : list (string * string))
  : list string :=
  map snd (filter (fun e => String.eqb (fst e) k) l).

(** The distinct elements of a list in the order of their first
    occurrence. *)
Fixpoint first_seen (l : list string) : list string :=
  match l with
  | [] => []
  | k :: l' => k :: filter (fun k' => negb (String.eqb k' k)) (first_seen l')
  end.

Definition group_by (l : list (string * string)) : Dict.t :=
  map (fun k => (k, paths_named k l)) (first_seen (map fst l)).

(** Lines 21-23 alone: what the loop does with a file that matches. *)
Definition record (swift_files : Dict.t) (e : string * string) : Dict.t :=
  let '(file, path) := e in
  Dict.append file path
    (if negb (Dict.mem file swift_files)
     then Dict.set file [] swift_files
     else swift_files).

(** The report as the format gives it. *)
Definition flat (l : list string) : string := fold_right String.append "" l.

Definition path_line (path : string) : string := "  - " ++ path ++ nl.

Definition block (item : string * list string) : string :=
  nl ++ fst item ++ ":" ++ nl ++ flat (map path_line (snd item)).

Definition is_duplicate (item : string * list string) : bool :=
  (2 <=? List.length (snd item))%nat.

Definition banner (pbxproj_path : string) : string :=
  "Analyzing project file: " ++ pbxproj_path ++ nl ++ nl.

Definition header : string := "Duplicate Swift files found:" ++ nl.

Definition no_duplicates : string := "No duplicate Swift files found." ++ nl.

Definition report_of (d : Dict.t) : string :=
  if existsb is_duplicate d
  then flat (map block (filter is_duplicate d))
  else no_duplicates.

(** The output with the project path spliced into the first line as it
    is, a separator after it. *)
Definition literal_output (root_path : string) (d : Dict.t) : string :=
  "Analyzing project file: " ++ root_path ++ "/project.pbxproj" ++ nl ++ nl
    ++ header ++ report_of d.

(** ** A sample tree *)

Definition demo_tree : node :=
  Dir "proj" true
    [ File "Bar.swift" "bar";
      Dir "a" true [ File "Foo.swift" "1"; File "README.md" "" ];
      Symlink "loop" ".." true;
      Dir "b" true [ File "Foo.swift" "2"; File "foo.swift" ""; File "X.SWIFT" "" ];
      Dir "secret" false [ File "Foo.swift" "3" ] ].

Definition demo_host : host :=
  fun p => if String.eqb p "proj" then Some demo_tree else None.

(** The sample tree after its files were rewritten, with a project file
    that the first host lacks. *)
Definition demo_host_edited : host :=
  fun p =>
    if String.eqb p "proj" then
      Some (Dir "proj" true
              [ File "Bar.swift" "edited";
                Dir "a" true [ File "Foo.swift" "edited"; File "README.md" "x" ];
                Symlink "loop" ".." true;
                Dir "b" true [ File "Foo.swift" ""; File "foo.swift" "y";
                               File "X.SWIFT" "z" ];
                Dir "secret" false [ File "Foo.swift" "3" ] ])
    else if String.eqb p "proj/App.xcodeproj/project.pbxproj" then
      Some (File "project.pbxproj" "// !$*UTF8*$!")
    else None.

(** A host on which no path resolves. *)
Definition bare_host : host := fun _ => None.

(** ** Paths and trees as a file system has them *)

(** A directory path ready to take a name: [os.path.join] puts a separator
    after it unless the path is empty or ends with one. *)
Definition slashed (top : string) : string :=
  if String.eqb top "" || PyStr.endswith top (String PosixPath.sep "")
  then top
  else (top ++ String PosixPath.sep "")%string.

(** Every name the walk yields among the files, with the path the script
    builds for it. *)
Definition all_files (w : list triple) : list (string * string) :=
  flat_map (fun t : triple =>
              let '(root, _, files) := t in
              map (fun file => (file, PosixPath.join root file)) files)
           w.

(** The same read off the tree: the names of the entries that are no
    directories, each with the prefix of its directory before it. *)
Fixpoint files_in (prefix : string) (n : node) {struct n}
  : list (string * string) :=
  match n with
  | Dir _ true entries =>
      map (fun file => (file, (prefix ++ file)%string)) (nondirs_of entries)
        ++ flat_map
             (fun c =>
                files_in (prefix ++ name_of c ++ String PosixPath.sep "") c)
             entries
  | _ => []
  end.

Fixpoint distinct (l : list string) : bool :=
  match l with
  | [] => true
  | x :: l' => negb (existsb (String.eqb x) l') && distinct l'
  end.

(** An entry as a file system holds it: its name is not empty and has no
    separator, and the entries of a directory have names of their own. *)
Fixpoint entry_ok (n : node) : bool :=
  no_sep (name_of n) && negb (String.eqb (name_of n) "") &&
  match n with
  | Dir _ _ entries => distinct (map name_of entries) && forallb entry_ok entries
  | _ => true
  end.

(** The same for the directory a scan root resolves to, whose own name the
    walk never sees. *)
Definition root_ok (n : node) : bool :=
  match n with
  | Dir _ _ entries => distinct (map name_of entries) && forallb entry_ok entries
  | _ => true
  end.

(** A tree with the entries of its directories listed in another order. *)
#[warnings="-register-all"]
Inductive reordered : node -> node -> Prop :=
| reordered_file : forall nm c, reordered (File nm c) (File nm c)
| reordered_link : forall nm t d, reordered (Symlink nm t d) (Symlink nm t d)
| reordered_dir : forall nm r entries entries1 entries2,
    Forall2 reordered entries entries1 ->
    Permutation entries1 entries2 ->
    reordered (Dir nm r entries) (Dir nm r entries2).

(** What [scandir] can list: a directory that is readable. *)
Definition listable (n : node) : bool :=
  match n with
  | Dir _ true _ => true
  | _ => false
  end.

(** The paths a dictionary holds under a name, none without the name. *)
Definition paths_of (k : string) (d : Dict.t) : list string :=
  match Dict.get k d with
  | Some ps => ps
  | None => []
  end.

(** The sample tree as another file system may list it. *)
Definition demo_tree_reordered : node :=
  Dir "proj" true
    [ Dir "secret" false [ File "Foo.swift" "3" ];
      Dir "b" true [ File "X.SWIFT" ""; File "foo.swift" ""; File "Foo.swift" "2" ];
      Symlink "loop" ".." true;
      Dir "a" true [ File "README.md" ""; File "Foo.swift" "1" ];
      File "Bar.swift" "bar" ].

Definition demo_host_reordered : host :=
  fun p => if String.eqb p "proj" then Some demo_tree_reordered else None.

(** * Properties *)

(** ** The sample tree *)

Example demo_walk :
  os_walk demo_host "proj" =
    [ ("proj", ["a"; "loop"; "b"; "secret"], ["Bar.swift"]);
      ("proj/a", [], ["Foo.swift"; "README.md"]);
      ("proj/b", [], ["Foo.swift"; "foo.swift"; "X.SWIFT"]) ].
Proof. reflexivity. Qed.

Example demo_groups :
  groups demo_host "proj/App.xcodeproj" =
    [ ("Bar.swift", ["proj/Bar.swift"]);
      ("Foo.swift", ["proj/a/Foo.swift"; "proj/b/Foo.swift"]);
      ("foo.swift", ["proj/b/foo.swift"]) ].
Proof. reflexivity. Qed.

Example demo_dirname :
  map PosixPath.dirname
      ["proj/App.xcodeproj"; "App.xcodeproj"; "/App"; "a//b"; "a/b/"; "//"]
  = ["proj"; ""; "/"; "a"; "a/b"; "//"].
Proof. reflexivity. Qed.

Example demo_loop :
  walk_loop 5 [("proj", demo_host "proj")] = Some (os_walk demo_host "proj").
Proof. reflexivity. Qed.

Example demo_report :
  analyze_project demo_host "proj/App.xcodeproj" =
    ((banner "proj/App.xcodeproj/project.pbxproj" ++ header
        ++ block ("Foo.swift", ["proj/a/Foo.swift"; "proj/b/Foo.swift"]))%string,
     true).
Proof. reflexivity. Qed.

(** ** Strings *)

Section Strings.

Lemma append_assoc (a b c : string) : ((a ++ b) ++ c = a ++ (b ++ c))%string.
Proof. induction a as [|x a IH]; simpl; [reflexivity | now rewrite IH]. Qed.

Lemma append_empty_r (a : string) : (a ++ "")%string = a.
Proof. induction a as [|x a IH]; simpl; [reflexivity | now rewrite IH]. Qed.

Lemma append_length (a b : string) :
  String.length (a ++ b) = String.length a + String.length b.
Proof. induction a as [|x a IH]; simpl; [reflexivity | now rewrite IH]. Qed.

Lemma endswith_empty (suf : string) :
  PyStr.endswith "" suf = String.eqb "" suf.
Proof. unfold PyStr.endswith. apply orb_false_r. Qed.

Lemma endswith_String (c : ascii) (s suf : string) :
  PyStr.endswith (String c s) suf =
    String.eqb (String c s) suf || PyStr.endswith s suf.
Proof. reflexivity. Qed.

(** [endswith] is the suffix relation on the characters as they are. *)
Lemma endswith_spec (s suf : string) :
  PyStr.endswith s suf = true <-> exists pre, s = (pre ++ suf)%string.
Proof.
  split.
  - induction s as [|c s IH]; intros H.
    + rewrite endswith_empty in H. apply String.eqb_eq in H.
      exists ""%string. now subst.
    + rewrite endswith_String in H. apply orb_true_iff in H as [H|H].
      * apply String.eqb_eq in H. exists ""%string. now subst.
      * destruct (IH H) as [pre ->]. now exists (String c pre).
  - intros [pre ->].
    induction pre as [|c pre IH].
    + destruct suf as [|d suf]; [reflexivity|].
      change ("" ++ String d suf)%string with (String d suf).
      rewrite endswith_String. now rewrite String.eqb_refl.
    + change (String c pre ++ suf)%string with (String c (pre ++ suf)).
      rewrite endswith_String, IH. apply orb_true_r.
Qed.

Lemma startswith_spec (s pre : string) :
  PyStr.startswith s pre = true <-> exists rest, s = (pre ++ rest)%string.
Proof.
  revert s. induction pre as [|c pre IH]; intros s; simpl.
  - split; [intros _; now exists s | intros _; destruct s; reflexivity].
  - destruct s as [|d s].
    + split; [discriminate | intros [rest H]; discriminate].
    + simpl. rewrite andb_true_iff, Ascii.eqb_eq, IH. split.
      * intros [-> [rest ->]]. now exists rest.
      * intros [rest H]. injection H as -> ->. split; [reflexivity | now exists rest].
Qed.

End Strings.

(** ** Dictionaries *)

Section Dictionaries.

Lemma mem_In (k : string) (d : Dict.t) :
  Dict.mem k d = true <-> In k (Dict.keys d).
Proof.
  induction d as [|[k' v] d IH]; simpl.
  - split; [discriminate | tauto].
  - rewrite orb_true_iff, String.eqb_eq, IH. reflexivity.
Qed.

Lemma mem_get (k : string) (d : Dict.t) :
  Dict.mem k d = true <-> exists v, Dict.get k d = Some v.
Proof.
  induction d as [|[k' v] d IH]; simpl.
  - split; [discriminate | intros [v H]; discriminate].
  - destruct (String.eqb k' k); simpl; [|exact IH].
    split; [intros _; now exists v | reflexivity].
Qed.

Lemma get_In (k : string) (v : list string) (d : Dict.t) :
  Dict.get k d = Some v -> In (k, v) d.
Proof.
  induction d as [|[k' v'] d IH]; simpl; [discriminate|].
  destruct (String.eqb_spec k' k) as [->|Hne].
  - intros [= ->]. now left.
  - intros H. right. auto.
Qed.

Lemma In_get (k : string) (v : list string) (d : Dict.t) :
  NoDup (Dict.keys d) -> In (k, v) d -> Dict.get k d = Some v.
Proof.
  induction d as [|[k' v'] d IH]; simpl; [tauto|].
  intros Hnd [H|H]; inversion Hnd as [|? ? Hnotin Hnd']; subst.
  - injection H as -> ->. now rewrite String.eqb_refl.
  - destruct (String.eqb_spec k' k) as [->|Hne]; [|auto].
    exfalso. apply Hnotin. change k with (fst (k, v)). now apply in_map.
Qed.

(** The three dictionary operations on a dictionary given key by key. *)
Variable F : string -> list string.
Let G (k : string) : string * list string := (k, F k).

Lemma mem_tabulated (k : string) (ks : list string) :
  Dict.mem k (map G ks) = true <-> In k ks.
Proof.
  rewrite mem_In. unfold Dict.keys. rewrite map_map. simpl.
  now rewrite map_id.
Qed.

Lemma set_tabulated (k : string) (v : list string) (ks : list string) :
  ~ In k ks -> Dict.set k v (map G ks) = map G ks ++ [(k, v)].
Proof.
  induction ks as [|a ks IH]; simpl; intros Hk; [reflexivity|].
  destruct (String.eqb_spec a k) as [->|Hne]; [tauto|].
  rewrite IH; tauto.
Qed.

Lemma append_skips (k x : string) (ks : list string) (d : Dict.t) :
  ~ In k ks -> Dict.append k x (map G ks ++ d) = map G ks ++ Dict.append k x d.
Proof.
  induction ks as [|a ks IH]; simpl; intros Hk; [reflexivity|].
  destruct (String.eqb_spec a k) as [->|Hne]; [tauto|].
  rewrite IH; tauto.
Qed.

Lemma append_tabulated (k x : string) (ks : list string) :
  NoDup ks -> In k ks ->
  Dict.append k x (map G ks) =
    map (fun k' => (k', if String.eqb k' k then F k' ++ [x] else F k')) ks.
Proof.
  induction ks as [|a ks IH]; simpl; intros Hnd Hin; [tauto|].
  inversion Hnd as [|? ? Hnotin Hnd']; subst.
  destruct (String.eqb_spec a k) as [->|Hne].
  - f_equal. apply map_ext_in. intros k' Hk'.
    destruct (String.eqb_spec k' k) as [->|_]; [tauto | reflexivity].
  - f_equal. destruct Hin as [Hin|Hin]; [congruence|]. now apply IH.
Qed.

End Dictionaries.

(** ** First occurrences *)

Section FirstSeen.

Lemma first_seen_In (k : string) (l : list string) :
  In k (first_seen l) <-> In k l.
Proof.
  induction l as [|a l IH]; simpl; [reflexivity|].
  rewrite filter_In, IH, negb_true_iff, String.eqb_neq.
  destruct (string_dec a k) as [->|Hne]; [tauto|].
  split; [tauto|]. intros [H|H]; [tauto|]. right. split; congruence.
Qed.

Lemma first_seen_NoDup (l : list string) : NoDup (first_seen l).
Proof.
  induction l as [|a l IH]; simpl; constructor.
  - rewrite filter_In, negb_true_iff, String.eqb_neq. tauto.
  - now apply NoDup_filter.
Qed.

Lemma first_seen_snoc (l : list string) (k : string) :
  first_seen (l ++ [k]) =
    if in_dec string_dec k l then first_seen l else first_seen l ++ [k].
Proof.
  induction l as [|a l IH]; simpl; [reflexivity|].
  rewrite IH.
  destruct (in_dec string_dec k l) as [Hin|Hnotin];
    destruct (string_dec a k) as [->|Hne]; try reflexivity.
  - rewrite filter_app. simpl. rewrite String.eqb_refl. simpl.
    now rewrite app_nil_r.
  - rewrite filter_app. simpl.
    destruct (String.eqb_spec k a) as [->|_]; [congruence | reflexivity].
Qed.

End FirstSeen.

(** ** The walk loop builds the groups of the matching files *)

Section Grouping.

Lemma paths_named_snoc (k' k p : string) (l : list (string * string)) :
  paths_named k' (l ++ [(k, p)]) =
    paths_named k' l ++ (if String.eqb k k' then [p] else []).
Proof.
  unfold paths_named. rewrite filter_app, map_app. simpl.
  now destruct (String.eqb k k').
Qed.

Lemma paths_named_absent (k : string) (l : list (string * string)) :
  ~ In k (map fst l) -> paths_named k l = [].
Proof.
  unfold paths_named. induction l as [|[k' p] l IH]; simpl; [reflexivity|].
  intros H. destruct (String.eqb_spec k' k) as [->|_]; [tauto|].
  apply IH. tauto.
Qed.

Lemma paths_named_In (k q : string) (l : list (string * string)) :
  In q (paths_named k l) <-> In (k, q) l.
Proof.
  unfold paths_named. rewrite in_map_iff. split.
  - intros [[k' q'] [Hq Hin]]. simpl in Hq. subst q'.
    apply filter_In in Hin as [Hin Hk]. simpl in Hk.
    apply String.eqb_eq in Hk. now subst.
  - intros Hin. exists (k, q). split; [reflexivity|].
    apply filter_In. split; [assumption|]. apply String.eqb_refl.
Qed.

Lemma record_group_by (l : list (string * string)) (e : string * string) :
  record (group_by l) e = group_by (l ++ [e]).
Proof.
  destruct e as [k p]. unfold record, group_by.
  rewrite map_app. change (map fst [(k, p)]) with [k].
  rewrite first_seen_snoc.
  pose proof (first_seen_NoDup (map fst l)) as Hnd.
  destruct (in_dec string_dec k (map fst l)) as [Hin|Hnotin].
  - assert (Hmem : Dict.mem k (map (fun k0 => (k0, paths_named k0 l))
                                   (first_seen (map fst l))) = true).
    { apply mem_tabulated. now apply first_seen_In. }
    rewrite Hmem. simpl negb. cbv iota.
    rewrite append_tabulated by (try apply first_seen_In; assumption).
    apply map_ext. intros k'. rewrite paths_named_snoc.
    rewrite String.eqb_sym.
    destruct (String.eqb k k'); [reflexivity | now rewrite app_nil_r].
  - assert (Hmem : Dict.mem k (map (fun k0 => (k0, paths_named k0 l))
                                   (first_seen (map fst l))) = false).
    { apply not_true_is_false. rewrite mem_tabulated, first_seen_In.
      assumption. }
    rewrite Hmem. simpl negb. cbv iota.
    assert (Hk : ~ In k (first_seen (map fst l)))
      by now rewrite first_seen_In.
    rewrite set_tabulated by assumption.
    rewrite append_skips by assumption.
    simpl Dict.append. rewrite String.eqb_refl.
    rewrite map_app. f_equal; [|simpl; f_equal; f_equal].
    + apply map_ext_in. intros k' Hk'. rewrite paths_named_snoc.
      destruct (String.eqb_spec k k') as [->|_]; [tauto|].
      now rewrite app_nil_r.
    + rewrite paths_named_snoc, String.eqb_refl.
      now rewrite (paths_named_absent k l Hnotin).
Qed.

Lemma fold_record (l l0 : list (string * string)) :
  fold_left record l (group_by l0) = group_by (l0 ++ l).
Proof.
  revert l0. induction l as [|e l IH]; intros l0; simpl.
  - now rewrite app_nil_r.
  - rewrite record_group_by, IH, <- app_assoc. reflexivity.
Qed.

Lemma record_file_matching (root : string) (files : list string) (d : Dict.t) :
  fold_left (record_file root) files d =
    fold_left record (matching_of (root, @nil string, files)) d.
Proof.
  revert d. induction files as [|f files IH]; intros d; simpl; [reflexivity|].
  rewrite IH. unfold record_file.
  destruct (PyStr.endswith f target_suffix); reflexivity.
Qed.

Lemma record_triple_matching (w : list triple) (d : Dict.t) :
  fold_left record_triple w d = fold_left record (matching w) d.
Proof.
  revert d. induction w as [|[[root dirs] files] w IH]; intros d; simpl;
    [reflexivity|].
  unfold matching in *. simpl. rewrite fold_left_app, IH.
  f_equal. apply record_file_matching.
Qed.

(** The dictionary after the walk: one entry per name, in the order the
    names were first met, each with its paths in the order of the walk. *)
Lemma scan_group_by (w : list triple) : scan w = group_by (matching w).
Proof.
  unfold scan. rewrite record_triple_matching.
  exact (fold_record (matching w) []).
Qed.

End Grouping.

(** ** The report loop *)

Section Report.

Lemma print_paths_flat (out : string) (paths : list string) :
  print_paths out paths = (out ++ flat (map path_line paths))%string.
Proof.
  unfold print_paths. revert out.
  induction paths as [|q paths IH]; intros out; simpl.
  - now rewrite append_empty_r.
  - rewrite IH. unfold print, path_line.
    now rewrite !append_assoc.
Qed.

Lemma report_item_block (out : string) (b : bool)
      (item : string * list string) :
  report_item (out, b) item =
    if is_duplicate item then ((out ++ block item)%string, true)
    else (out, b).
Proof.
  destruct item as [filename paths]. unfold report_item, is_duplicate.
  simpl snd. change (1 <? List.length paths)%nat
    with (2 <=? List.length paths)%nat.
  destruct (2 <=? List.length paths)%nat; [|reflexivity].
  rewrite print_paths_flat. unfold print, block. simpl fst. simpl snd.
  now rewrite !append_assoc.
Qed.

Lemma report_loop (d : Dict.t) (out : string) (b : bool) :
  fold_left report_item d (out, b) =
    ((out ++ flat (map block (filter is_duplicate d)))%string,
     b || existsb is_duplicate d).
Proof.
  revert out b. induction d as [|item d IH]; intros out b;
    cbn [fold_left filter existsb].
  - simpl. now rewrite append_empty_r, orb_false_r.
  - rewrite report_item_block.
    destruct (is_duplicate item); rewrite IH; cbn [map flat fold_right].
    + now rewrite append_assoc, orb_true_r.
    + reflexivity.
Qed.

(** The whole of [analyze_project]: what it prints and what it returns. *)
Lemma analyze_project_report (h : host) (project_path : string) :
  analyze_project h project_path =
    ((banner (PosixPath.join project_path "project.pbxproj")
        ++ header ++ report_of (groups h project_path))%string,
     existsb is_duplicate (groups h project_path)).
Proof.
  unfold analyze_project. fold (groups h project_path).
  rewrite report_loop. simpl orb. unfold report_of.
  destruct (existsb is_duplicate (groups h project_path)) eqn:E; simpl negb;
    cbv iota; f_equal.
  - unfold print, banner, header. simpl. now rewrite !append_assoc.
  - assert (Hnone : filter is_duplicate (groups h project_path) = []).
    { induction (groups h project_path) as [|item d IH]; [reflexivity|].
      simpl in E |- *. apply orb_false_iff in E as [-> E]. auto. }
    rewrite Hnone. unfold print, banner, header, no_duplicates. simpl.
    now rewrite !append_assoc.
Qed.

End Report.

(** ** Trees *)

Section Trees.

(** Induction on a tree with the hypothesis for every entry of a
    directory. *)
Lemma node_ind_entries (P : node -> Prop) :
  (forall nm c, P (File nm c)) ->
  (forall nm t d, P (Symlink nm t d)) ->
  (forall nm r entries, Forall P entries -> P (Dir nm r entries)) ->
  forall n, P n.
Proof.
  intros HF HS HD. fix IH 1. intros [nm c|nm t d|nm r entries].
  - apply HF.
  - apply HS.
  - apply HD. induction entries as [|e entries IHe]; constructor.
    + apply IH.
    + exact IHe.
Qed.

Lemma walk_Dir (top nm : string) (entries : list node) :
  walk top (Dir nm true entries) =
    (top, dirs_of entries, nondirs_of entries)
      :: flat_map (fun c => walk (PosixPath.join top (name_of c)) c) entries.
Proof. reflexivity. Qed.


Lemma nondirs_of_In (f : string) (entries : list node) :
  In f (nondirs_of entries) <->
  exists e, In e entries /\ is_dir e = false /\ name_of e = f.
Proof.
  unfold nondirs_of. rewrite in_map_iff. split.
  - intros [e [Hn Hin]]. apply filter_In in Hin as [Hin Hd].
    apply negb_true_iff in Hd. now exists e.
  - intros [e [Hin [Hd Hn]]]. exists e. split; [assumption|].
    apply filter_In. split; [assumption|]. now rewrite Hd.
Qed.

(** The walk yields a file exactly when the tree lists it. *)
Lemma walk_lists_file (n : node) :
  forall top d f,
    (exists dirs files, In (d, dirs, files) (walk top n) /\ In f files)
    <-> lists_file top n d f.
Proof.
  induction n as [nm c|nm t dd|nm r entries IH] using node_ind_entries;
    intros top d f.
  - split; [intros [? [? [[] _]]] | intros H; inversion H].
  - split; [intros [? [? [[] _]]] | intros H; inversion H].
  - destruct r.
    2:{ split; [intros [? [? [[] _]]] | intros H; inversion H]. }
    rewrite walk_Dir. split.
    + intros [dirs [files [[Heq|Hin] Hf]]].
      * injection Heq as <- <- <-.
        apply nondirs_of_In in Hf as [e [He [Hd <-]]].
        now apply lists_here.
      * apply in_flat_map in Hin as [c [Hc Hin]].
        apply lists_below with (c := c); [assumption|].
        rewrite Forall_forall in IH. apply (IH c Hc).
        now exists dirs, files.
    + intros H. inversion H as [? ? ? e He Hd|? ? ? c ? ? Hc Hsub]; subst.
      * exists (dirs_of entries), (nondirs_of entries).
        split; [now left|]. apply nondirs_of_In. now exists e.
      * rewrite Forall_forall in IH.
        apply (IH c Hc) in Hsub as [dirs [files [Hin Hf]]].
        exists dirs, files. split; [|assumption].
        right. apply in_flat_map. now exists c.
Qed.

Lemma lists_holds (n : node) :
  forall top d f, lists_file top n d f -> holds_file top n d f.
Proof.
  intros top d f H. induction H.
  - now apply holds_here.
  - now apply holds_below with (c := c).
Qed.

Lemma holds_lists (n : node) :
  forall top d f,
    all_readable n = true -> holds_file top n d f -> lists_file top n d f.
Proof.
  intros top d f Hr H. induction H as [top nm r entries e He Hd
                                     |top nm r entries c d f Hc Hsub IH].
  - simpl in Hr. apply andb_true_iff in Hr as [-> _]. now apply lists_here.
  - simpl in Hr. apply andb_true_iff in Hr as [-> Hall].
    apply lists_below with (c := c); [assumption|].
    apply IH. rewrite forallb_forall in Hall. now apply Hall.
Qed.

Lemma matching_app (w1 w2 : list triple) :
  matching (w1 ++ w2) = matching w1 ++ matching w2.
Proof. apply flat_map_app. Qed.

Lemma matching_flat_map {A : Type} (f g : A -> list triple) (l : list A) :
  Forall (fun a => matching (f a) = matching (g a)) l ->
  matching (flat_map f l) = matching (flat_map g l).
Proof.
  induction 1 as [|a l Ha Hl IH]; simpl; [reflexivity|].
  now rewrite !matching_app, Ha, IH.
Qed.

Lemma skip_unreadable_name (n : node) :
  name_of (skip_unreadable n) = name_of n.
Proof. destruct n as [| |nm [] es]; reflexivity. Qed.

Lemma skip_unreadable_is_dir (n : node) :
  is_dir (skip_unreadable n) = is_dir n.
Proof. destruct n as [| |nm [] es]; reflexivity. Qed.

Lemma filter_map_names (f : node -> node) (p : node -> bool)
      (entries : list node) :
  (forall e, name_of (f e) = name_of e) ->
  (forall e, p (f e) = p e) ->
  map name_of (filter p (map f entries)) = map name_of (filter p entries).
Proof.
  intros Hn Hp. induction entries as [|e entries IH]; simpl; [reflexivity|].
  rewrite Hp. destruct (p e); simpl; now rewrite ?Hn, IH.
Qed.

(** A directory that cannot be listed adds nothing to the matching
    files, and neither does an empty one. *)
Lemma skip_unreadable_matching (n : node) :
  forall top,
    matching (walk top (skip_unreadable n)) = matching (walk top n).
Proof.
  induction n as [nm c|nm t dd|nm r entries IH] using node_ind_entries;
    intros top; try reflexivity.
  destruct r; [|reflexivity].
  simpl skip_unreadable. rewrite !walk_Dir.
  change (?t :: ?w) with ([t] ++ w). rewrite !matching_app. f_equal.
  - unfold matching. simpl. f_equal. unfold nondirs_of.
    f_equal. f_equal.
    apply filter_map_names; [apply skip_unreadable_name|].
    intros e. now rewrite skip_unreadable_is_dir.
  - rewrite flat_map_concat_map, map_map, <- flat_map_concat_map.
    apply matching_flat_map. rewrite Forall_forall in IH |- *.
    intros c Hc. rewrite skip_unreadable_name. now apply IH.
Qed.

Lemma skip_unreadable_readable (n : node) :
  all_readable (skip_unreadable n) = true.
Proof.
  induction n as [nm c|nm t dd|nm r entries IH] using node_ind_entries;
    try reflexivity.
  destruct r; [|reflexivity]. simpl. apply forallb_forall.
  intros e He. apply in_map_iff in He as [e' [<- He']].
  rewrite Forall_forall in IH. now apply IH.
Qed.

Lemma blank_name (n : node) : name_of (blank n) = name_of n.
Proof. destruct n; reflexivity. Qed.

Lemma blank_is_dir (n : node) : is_dir (blank n) = is_dir n.
Proof. destruct n; reflexivity. Qed.

(** The walk does not look into files. *)
Lemma blank_walk (n : node) : forall top, walk top (blank n) = walk top n.
Proof.
  induction n as [nm c|nm t dd|nm r entries IH] using node_ind_entries;
    intros top; try reflexivity.
  destruct r; [|reflexivity].
  simpl blank. rewrite !walk_Dir. f_equal.
  - unfold dirs_of, nondirs_of. f_equal; [f_equal|].
    + apply filter_map_names; [apply blank_name | apply blank_is_dir].
    + apply filter_map_names; [apply blank_name|].
      intros e. now rewrite blank_is_dir.
  - rewrite flat_map_concat_map, map_map, <- flat_map_concat_map.
    rewrite !flat_map_concat_map. f_equal. apply map_ext_in.
    intros c Hc. rewrite blank_name.
    rewrite Forall_forall in IH. now apply IH.
Qed.

End Trees.

(** ** The loop of the walk comes to an end *)

Section WalkLoop.









End WalkLoop.

(** ** The paths of the groups are those of the matching files *)

Section Multiset.

Lemma values_set_new (k : string) (d : Dict.t) :
  concat (Dict.values (Dict.set k [] d)) =
    if Dict.mem k d then concat (Dict.values (Dict.set k [] d))
    else concat (Dict.values d).
Proof.
  destruct (Dict.mem k d) eqn:E; [reflexivity|].
  induction d as [|[k' v] d IH]; simpl in *; [reflexivity|].
  apply orb_false_iff in E as [E1 E2]. rewrite E1. simpl.
  now rewrite IH.
Qed.

Lemma mem_set (k : string) (v : list string) (d : Dict.t) :
  Dict.mem k (Dict.set k v d) = true.
Proof.
  induction d as [|[k' v'] d IH]; simpl.
  - now rewrite String.eqb_refl.
  - destruct (String.eqb k' k) eqn:E; simpl; rewrite E; [reflexivity|].
    exact IH.
Qed.

Lemma append_permutation (k x : string) (d : Dict.t) :
  Dict.mem k d = true ->
  Permutation (concat (Dict.values (Dict.append k x d)))
              (x :: concat (Dict.values d)).
Proof.
  induction d as [|[k' v] d IH]; simpl; [discriminate|].
  destruct (String.eqb k' k); simpl; intros H.
  - rewrite <- app_assoc. simpl. symmetry. apply Permutation_middle.
  - rewrite (IH H). symmetry. apply Permutation_middle.
Qed.

Lemma record_permutation (d : Dict.t) (e : string * string) :
  Permutation (concat (Dict.values (record d e)))
              (snd e :: concat (Dict.values d)).
Proof.
  destruct e as [k p]. unfold record. simpl snd.
  destruct (Dict.mem k d) eqn:E; simpl negb; cbv iota.
  - now apply append_permutation.
  - rewrite append_permutation by apply mem_set.
    now rewrite values_set_new, E.
Qed.

Lemma fold_record_permutation (l : list (string * string)) (d : Dict.t) :
  Permutation (concat (Dict.values (fold_left record l d)))
              (concat (Dict.values d) ++ map snd l).
Proof.
  revert d. induction l as [|e l IH]; intros d; simpl.
  - now rewrite app_nil_r.
  - rewrite IH, record_permutation. apply Permutation_middle.
Qed.

Lemma scan_permutation (w : list triple) :
  Permutation (concat (Dict.values (scan w))) (map snd (matching w)).
Proof.
  unfold scan. rewrite record_triple_matching.
  exact (fold_record_permutation (matching w) []).
Qed.

End Multiset.

(** ** The groups of a walk *)

Section Groups.

Lemma matching_In (k q : string) (w : list triple) :
  In (k, q) (matching w) <->
  exists root dirs files,
    In (root, dirs, files) w /\ In k files
    /\ PyStr.endswith k target_suffix = true
    /\ q = PosixPath.join root k.
Proof.
  unfold matching. rewrite in_flat_map. split.
  - intros [[[root dirs] files] [Hw Hin]]. simpl in Hin.
    apply in_map_iff in Hin as [f [Heq Hf]]. injection Heq as -> <-.
    apply filter_In in Hf as [Hf Hs].
    now exists root, dirs, files.
  - intros [root [dirs [files [Hw [Hf [Hs ->]]]]]].
    exists (root, dirs, files). split; [assumption|]. simpl.
    apply in_map_iff. exists k. split; [reflexivity|].
    now apply filter_In.
Qed.

Lemma group_by_keys (l : list (string * string)) :
  Dict.keys (group_by l) = first_seen (map fst l).
Proof.
  unfold Dict.keys, group_by. rewrite map_map. simpl. apply map_id.
Qed.

Lemma group_by_NoDup (l : list (string * string)) :
  NoDup (Dict.keys (group_by l)).
Proof. rewrite group_by_keys. apply first_seen_NoDup. Qed.

Lemma group_by_In (k : string) (ps : list string)
      (l : list (string * string)) :
  In (k, ps) (group_by l) <-> In k (map fst l) /\ ps = paths_named k l.
Proof.
  unfold group_by. rewrite in_map_iff. split.
  - intros [k' [Heq Hin]]. injection Heq as Hk Hps. subst k' ps.
    rewrite first_seen_In in Hin. split; [assumption | reflexivity].
  - intros [Hin ->]. exists k. split; [reflexivity|].
    now apply first_seen_In.
Qed.

Lemma group_by_get (k : string) (l : list (string * string)) :
  In k (map fst l) -> Dict.get k (group_by l) = Some (paths_named k l).
Proof.
  intros Hin. apply In_get; [apply group_by_NoDup|].
  now apply group_by_In.
Qed.

Lemma paths_named_nonempty (k : string) (l : list (string * string)) :
  In k (map fst l) -> 1 <= List.length (paths_named k l).
Proof.
  intros Hin. apply in_map_iff in Hin as [[k' q] [Hk Hin]].
  simpl in Hk. subst k'. apply paths_named_In in Hin.
  destruct (paths_named k l); [contradiction | simpl; lia].
Qed.

Lemma is_duplicate_exists (d : Dict.t) :
  existsb is_duplicate d = true <->
  exists k ps, In (k, ps) d /\ 2 <= List.length ps.
Proof.
  rewrite existsb_exists. unfold is_duplicate. split.
  - intros [[k ps] [Hin H]]. cbn [snd] in H. apply Nat.leb_le in H.
    now exists k, ps.
  - intros [k [ps [Hin H]]]. exists (k, ps). split; [assumption|].
    cbn [snd]. now apply Nat.leb_le.
Qed.

Lemma os_walk_blank (h1 h2 : host) (top : string) :
  option_map blank (h1 top) = option_map blank (h2 top) ->
  os_walk h1 top = os_walk h2 top.
Proof.
  unfold os_walk. destruct (h1 top) as [n1|], (h2 top) as [n2|]; simpl;
    intros H; try discriminate; [|reflexivity].
  injection H as H.
  now rewrite <- (blank_walk n1), <- (blank_walk n2), H.
Qed.

Lemma os_walk_skip_unreadable (h : host) (top : string) :
  matching (os_walk (fun q => option_map skip_unreadable (h q)) top)
  = matching (os_walk h top).
Proof.
  unfold os_walk. destruct (h top) as [n|]; simpl; [|reflexivity].
  apply skip_unreadable_matching.
Qed.

Lemma join_literal (a b : string) :
  a <> ""%string ->
  PyStr.endswith a "/" = false ->
  PyStr.startswith b "/" = false ->
  PosixPath.join a b = (a ++ "/" ++ b)%string.
Proof.
  intros Ha He Hb. unfold PosixPath.join, PosixPath.sep.
  rewrite Hb, He. apply String.eqb_neq in Ha. now rewrite Ha.
Qed.

End Groups.

(** ** The key of a group is the base name of its paths *)

Section Basename.

Lemma rfind_succ_app (a b : string) (c : ascii) :
  PyStr.rfind_succ (a ++ b) c =
    match PyStr.rfind_succ b c with
    | O => PyStr.rfind_succ a c
    | S i => String.length a + S i
    end.
Proof.
  induction a as [|x a IH]; simpl.
  - now destruct (PyStr.rfind_succ b c).
  - rewrite IH. destruct (PyStr.rfind_succ b c); [reflexivity|].
    now rewrite Nat.add_succ_r.
Qed.

Lemma no_sep_String (x : ascii) (f : string) :
  no_sep (String x f) = true ->
  Ascii.eqb x PosixPath.sep = false /\ no_sep f = true.
Proof.
  cbn [no_sep]. intros H. apply andb_true_iff in H as [Hx Hf].
  apply negb_true_iff in Hx. now split.
Qed.

Lemma rfind_succ_no_sep (f : string) :
  no_sep f = true -> PyStr.rfind_succ f PosixPath.sep = 0.
Proof.
  induction f as [|x f IH]; [reflexivity|].
  intros H. apply no_sep_String in H as [Hx Hf].
  cbn [PyStr.rfind_succ]. now rewrite (IH Hf), Hx.
Qed.

Lemma startswith_char (x c : ascii) (f : string) :
  PyStr.startswith (String x f) (String c "") = Ascii.eqb c x.
Proof. simpl. destruct f; apply andb_true_r. Qed.

Lemma startswith_no_sep (f : string) :
  no_sep f = true -> PyStr.startswith f (String PosixPath.sep "") = false.
Proof.
  destruct f as [|x f]; [reflexivity|].
  intros H. apply no_sep_String in H as [Hx _].
  now rewrite startswith_char, Ascii.eqb_sym.
Qed.

Lemma substring_whole (f : string) : substring 0 (String.length f) f = f.
Proof. induction f as [|x f IH]; simpl; [reflexivity | now rewrite IH]. Qed.

Lemma substring_skip (a f : string) (m : nat) :
  substring (String.length a) m (a ++ f) = substring 0 m f.
Proof. induction a as [|x a IH]; simpl; [reflexivity | exact IH]. Qed.

Lemma basename_after_sep (y f : string) :
  no_sep f = true ->
  PosixPath.basename ((y ++ String PosixPath.sep "") ++ f) = f.
Proof.
  intros Hf. unfold PosixPath.basename.
  set (x := (y ++ String PosixPath.sep "")%string).
  assert (Hx : PyStr.rfind_succ (x ++ f) PosixPath.sep = String.length x).
  { rewrite rfind_succ_app, (rfind_succ_no_sep f Hf). unfold x.
    rewrite rfind_succ_app. simpl. rewrite append_length. simpl. lia. }
  rewrite Hx, append_length.
  replace (String.length x + String.length f - String.length x)
    with (String.length f) by lia.
  now rewrite substring_skip, substring_whole.
Qed.

(** A path built by the script has the name it was built from as its
    base name. *)
Lemma basename_join (d f : string) :
  no_sep f = true -> PosixPath.basename (PosixPath.join d f) = f.
Proof.
  intros Hf. unfold PosixPath.join.
  rewrite (startswith_no_sep f Hf).
  destruct (String.eqb_spec d "") as [->|Hd]; simpl orb.
  - simpl. unfold PosixPath.basename.
    rewrite (rfind_succ_no_sep f Hf), Nat.sub_0_r. apply substring_whole.
  - destruct (PyStr.endswith d (String PosixPath.sep "")) eqn:E.
    + apply endswith_spec in E as [y ->]. now apply basename_after_sep.
    + change (d ++ String PosixPath.sep f)%string
        with (d ++ (String PosixPath.sep "" ++ f))%string.
      rewrite <- append_assoc. now apply basename_after_sep.
Qed.

Lemma lists_file_no_sep (n : node) :
  forall top d f,
    names_ok n = true -> lists_file top n d f -> no_sep f = true.
Proof.
  intros top d f Hok H. induction H as [top nm entries e He Hd
                                      |top nm entries c d f Hc Hsub IH].
  - simpl in Hok. apply andb_true_iff in Hok as [_ Hall].
    rewrite forallb_forall in Hall. specialize (Hall e He).
    destruct e; simpl in Hall |- *;
      apply andb_true_iff in Hall as [Hall _]; exact Hall.
  - apply IH. simpl in Hok. apply andb_true_iff in Hok as [_ Hall].
    rewrite forallb_forall in Hall. now apply Hall.
Qed.

End Basename.

(** * The claims *)

(** ** C1: a scan root that does not exist *)

(** C1, at a concrete input: on a host where nothing exists, the scan of
    [/nowhere/App.xcodeproj] raises nothing; it prints the header and the
    message of a tree without duplicates after the first line, and returns
    [False]. *)
Lemma missing_root_still_reports :
  bare_host (PosixPath.dirname "/nowhere/App.xcodeproj") = None
  /\ analyze_project bare_host "/nowhere/App.xcodeproj" =
       (("Analyzing project file: /nowhere/App.xcodeproj/project.pbxproj"
           ++ nl ++ nl
           ++ "Duplicate Swift files found:" ++ nl
           ++ "No duplicate Swift files found." ++ nl)%string,
        false)
  /\ fst (analyze_project bare_host "/nowhere/App.xcodeproj") <>
       banner "/nowhere/App.xcodeproj/project.pbxproj".
Proof.
  split; [reflexivity|]. split; [reflexivity|].
  vm_compute. discriminate.
Qed.

(** C1, amended: when the scan root does not resolve, the walk yields
    nothing, no group is built, and the scan prints the first line, the
    blank line, the header and the message of a tree without duplicates,
    and returns [False]. *)
Theorem missing_root_empty_report (h : host) (project_path : string) :
  h (PosixPath.dirname project_path) = None ->
  os_walk h (PosixPath.dirname project_path) = []
  /\ groups h project_path = []
  /\ analyze_project h project_path =
       ((banner (PosixPath.join project_path "project.pbxproj")
           ++ header ++ no_duplicates)%string,
        false).
Proof.
  intros Hroot.
  assert (Hw : os_walk h (PosixPath.dirname project_path) = [])
    by (unfold os_walk; now rewrite Hroot).
  assert (Hg : groups h project_path = [])
    by (unfold groups; now rewrite Hw).
  repeat split; try assumption.
  rewrite analyze_project_report, Hg. reflexivity.
Qed.

Lemma missing_root_empty_report_witness :
  bare_host (PosixPath.dirname "/nowhere/App.xcodeproj") = None
  /\ (os_walk bare_host (PosixPath.dirname "/nowhere/App.xcodeproj") = []
      /\ groups bare_host "/nowhere/App.xcodeproj" = []
      /\ analyze_project bare_host "/nowhere/App.xcodeproj" =
           ((banner (PosixPath.join "/nowhere/App.xcodeproj" "project.pbxproj")
               ++ header ++ no_duplicates)%string,
            false)).
Proof.
  split; [reflexivity|].
  apply (missing_root_empty_report bare_host "/nowhere/App.xcodeproj").
  reflexivity.
Defined.

(** ** C2: the groups and the files under the scan root *)

(** C2, at a concrete input: in the sample tree the file
    [proj/secret/Foo.swift] lies under the scan root and its name ends
    with the suffix, and no group holds its path: the directory [secret]
    cannot be listed. *)
Lemma unlisted_file_in_no_group :
  demo_host (PosixPath.dirname "proj/App.xcodeproj") = Some demo_tree
  /\ holds_file "proj" demo_tree "proj/secret" "Foo.swift"
  /\ PyStr.endswith "Foo.swift" target_suffix = true
  /\ forall k ps,
       In (k, ps) (groups demo_host "proj/App.xcodeproj") ->
       ~ In (PosixPath.join "proj/secret" "Foo.swift") ps.
Proof.
  split; [reflexivity|]. split; [|split; [reflexivity|]].
  - apply holds_below with (c := Dir "secret" false [File "Foo.swift" "3"]).
    + simpl. tauto.
    + apply (holds_here "proj/secret" "secret" false
                        [File "Foo.swift" "3"] (File "Foo.swift" "3")).
      * now left.
      * reflexivity.
  - intros k ps Hin Hq. rewrite demo_groups in Hin. vm_compute in Hq.
    simpl in Hin.
    repeat (destruct Hin as [Hin|Hin];
            [injection Hin as <- <-; simpl in Hq; intuition discriminate|]).
    exact Hin.
Qed.

(** C2, amended: among the files in directories the walk can list (the
    scan root and below it, through directories that are no links), every
    file whose name ends with the suffix has its path in the group keyed
    by its name and only there; the keys are distinct; the paths of all
    groups together are the paths of these files, each as often as the
    walk met it; a group holds its paths in traversal order; and the key
    is the base name of each of its paths when names hold no separator.
    When every directory of the tree can be listed, these are all the
    files of the tree. *)
Theorem groups_of_listed_files (h : host) (project_path : string) (n : node) :
  h (PosixPath.dirname project_path) = Some n ->
  let top := PosixPath.dirname project_path in
  let g := groups h project_path in
  let m := matching (walk top n) in
  NoDup (Dict.keys g)
  /\ (forall d f,
        lists_file top n d f -> PyStr.endswith f target_suffix = true ->
        exists ps, Dict.get f g = Some ps /\ In (PosixPath.join d f) ps)
  /\ (forall k ps q,
        In (k, ps) g -> In q ps ->
        PyStr.endswith k target_suffix = true
        /\ exists d, lists_file top n d k /\ q = PosixPath.join d k)
  /\ Permutation (concat (Dict.values g)) (map snd m)
  /\ (forall k ps, In (k, ps) g -> ps = paths_named k m)
  /\ (names_ok n = true ->
      forall k ps q, In (k, ps) g -> In q ps -> PosixPath.basename q = k)
  /\ (all_readable n = true ->
      forall d f,
        holds_file top n d f -> PyStr.endswith f target_suffix = true ->
        exists ps, Dict.get f g = Some ps /\ In (PosixPath.join d f) ps).
Proof.
  intros Hroot top g m.
  assert (Hw : os_walk h top = walk top n)
    by (unfold os_walk, top; now rewrite Hroot).
  assert (Hg : g = group_by m).
  { unfold g, groups. fold top. rewrite Hw. apply scan_group_by. }
  assert (Hlisted : forall d f,
             lists_file top n d f -> PyStr.endswith f target_suffix = true ->
             exists ps, Dict.get f g = Some ps /\ In (PosixPath.join d f) ps).
  { intros d f Hl Hs. exists (paths_named f m).
    assert (Hin : In (f, PosixPath.join d f) m).
    { apply matching_In. apply walk_lists_file in Hl as [dirs [files [H1 H2]]].
      now exists d, dirs, files. }
    split.
    - rewrite Hg. apply group_by_get.
      change f with (fst (f, PosixPath.join d f)). now apply in_map.
    - now apply paths_named_In. }
  assert (Hback : forall k ps q,
             In (k, ps) g -> In q ps ->
             PyStr.endswith k target_suffix = true
             /\ exists d, lists_file top n d k /\ q = PosixPath.join d k).
  { intros k ps q Hin Hq. rewrite Hg in Hin.
    apply group_by_In in Hin as [_ ->]. apply paths_named_In in Hq.
    apply matching_In in Hq as [root [dirs [files [H1 [H2 [H3 ->]]]]]].
    split; [assumption|]. exists root. split; [|reflexivity].
    apply walk_lists_file. now exists dirs, files. }
  split; [rewrite Hg; apply group_by_NoDup|].
  split; [exact Hlisted|]. split; [exact Hback|].
  split.
  { unfold g, groups. fold top. rewrite Hw. apply scan_permutation. }
  split.
  { intros k ps Hin. rewrite Hg in Hin. now apply group_by_In in Hin. }
  split.
  - intros Hok k ps q Hin Hq.
    destruct (Hback k ps q Hin Hq) as [_ [d [Hl ->]]].
    apply basename_join. exact (lists_file_no_sep n top d k Hok Hl).
  - intros Hr d f Hh. apply Hlisted. now apply holds_lists.
Qed.

Lemma groups_of_listed_files_witness :
  demo_host (PosixPath.dirname "proj/App.xcodeproj") = Some demo_tree
  /\ lists_file "proj" demo_tree "proj/a" "Foo.swift"
  /\ exists ps,
       Dict.get "Foo.swift" (groups demo_host "proj/App.xcodeproj") = Some ps
       /\ In (PosixPath.join "proj/a" "Foo.swift") ps.
Proof.
  assert (Hl : lists_file "proj" demo_tree "proj/a" "Foo.swift").
  { apply lists_below
      with (c := Dir "a" true [File "Foo.swift" "1"; File "README.md" ""]).
    - simpl. tauto.
    - apply (lists_here "proj/a" "a"
                        [File "Foo.swift" "1"; File "README.md" ""]
                        (File "Foo.swift" "1")).
      + now left.
      + reflexivity. }
  split; [reflexivity|]. split; [exact Hl|].
  destruct (groups_of_listed_files demo_host "proj/App.xcodeproj" demo_tree
              eq_refl) as [_ [Hlisted _]].
  apply (Hlisted "proj/a" "Foo.swift" Hl). reflexivity.
Defined.

(** ** C3: no group is empty, and the flag tells a group of two or more *)

(** C3: after any scan every list of paths in the groups has at least one
    element, and the value returned is [True] exactly when some group has
    at least two. *)
Theorem groups_nonempty_and_flag (h : host) (project_path : string) :
  (forall k ps, In (k, ps) (groups h project_path) -> 1 <= List.length ps)
  /\ (snd (analyze_project h project_path) = true <->
      exists k ps,
        In (k, ps) (groups h project_path) /\ 2 <= List.length ps).
Proof.
  split.
  - intros k ps. unfold groups. rewrite scan_group_by, group_by_In.
    intros [Hin ->]. now apply paths_named_nonempty.
  - rewrite analyze_project_report. cbn [snd]. apply is_duplicate_exists.
Qed.

Lemma groups_nonempty_and_flag_witness :
  In ("Foo.swift", ["proj/a/Foo.swift"; "proj/b/Foo.swift"])
     (groups demo_host "proj/App.xcodeproj")
  /\ snd (analyze_project demo_host "proj/App.xcodeproj") = true.
Proof.
  assert (Hin : In ("Foo.swift", ["proj/a/Foo.swift"; "proj/b/Foo.swift"])
                   (groups demo_host "proj/App.xcodeproj"))
    by (rewrite demo_groups; simpl; tauto).
  split; [exact Hin|].
  apply (groups_nonempty_and_flag demo_host "proj/App.xcodeproj").
  exists "Foo.swift", ["proj/a/Foo.swift"; "proj/b/Foo.swift"].
  split; [exact Hin | simpl; lia].
Defined.

(** ** C4: the filter *)

(** C4: a name the walk yields among the files of a directory is recorded
    (its path stands in the group keyed by it) if and only if it ends with
    [.swift], character for character. *)
Theorem included_iff_suffix (h : host) (project_path : string)
        (root : string) (dirs files : list string) (file : string) :
  In (root, dirs, files) (os_walk h (PosixPath.dirname project_path)) ->
  In file files ->
  ((exists ps,
       Dict.get file (groups h project_path) = Some ps
       /\ In (PosixPath.join root file) ps)
   <-> exists pre, file = (pre ++ ".swift")%string).
Proof.
  intros Hw Hf. unfold groups. rewrite scan_group_by.
  set (m := matching (os_walk h (PosixPath.dirname project_path))).
  change ".swift"%string with target_suffix. rewrite <- endswith_spec.
  split.
  - intros [ps [Hget _]]. apply get_In, group_by_In in Hget as [Hk _].
    apply in_map_iff in Hk as [[k q] [Hk Hin]]. simpl in Hk. subst k.
    apply matching_In in Hin as [_ [_ [_ [_ [_ [Hs _]]]]]]. exact Hs.
  - intros Hs.
    assert (Hin : In (file, PosixPath.join root file) m)
      by (apply matching_In; now exists root, dirs, files).
    exists (paths_named file m). split.
    + apply group_by_get.
      change file with (fst (file, PosixPath.join root file)).
      now apply in_map.
    + now apply paths_named_In.
Qed.

Lemma included_iff_suffix_witness :
  In ("proj/b", [], ["Foo.swift"; "foo.swift"; "X.SWIFT"])
     (os_walk demo_host (PosixPath.dirname "proj/App.xcodeproj"))
  /\ In "X.SWIFT" ["Foo.swift"; "foo.swift"; "X.SWIFT"]
  /\ ((exists ps,
          Dict.get "X.SWIFT" (groups demo_host "proj/App.xcodeproj") = Some ps
          /\ In (PosixPath.join "proj/b" "X.SWIFT") ps)
      <-> exists pre, "X.SWIFT"%string = (pre ++ ".swift")%string).
Proof.
  assert (H1 : In ("proj/b", [], ["Foo.swift"; "foo.swift"; "X.SWIFT"])
                  (os_walk demo_host (PosixPath.dirname "proj/App.xcodeproj")))
    by (vm_compute; tauto).
  assert (H2 : In "X.SWIFT" ["Foo.swift"; "foo.swift"; "X.SWIFT"])
    by (simpl; tauto).
  split; [exact H1|]. split; [exact H2|].
  exact (included_iff_suffix demo_host "proj/App.xcodeproj" "proj/b" []
           ["Foo.swift"; "foo.swift"; "X.SWIFT"] "X.SWIFT" H1 H2).
Defined.

(** The comparison tells upper case from lower case, and a name that only
    contains the suffix does not match. *)
Example suffix_is_case_sensitive :
  map (fun f => PyStr.endswith f target_suffix)
      ["Foo.swift"; "foo.swift"; "X.SWIFT"; "x.Swift"; "a.swift.bak"; ".swift";
       "swift"]
  = [true; true; false; false; false; true; false].
Proof. reflexivity. Qed.

(** ** C5: the text of the report *)

(** C5, at a concrete input: for the empty project path the first line names
    [project.pbxproj] without a separator before it, so the output is not
    the format with the path spliced in. *)
Lemma empty_path_first_line :
  fst (analyze_project bare_host "") =
    ("Analyzing project file: project.pbxproj" ++ nl ++ nl
       ++ "Duplicate Swift files found:" ++ nl
       ++ "No duplicate Swift files found." ++ nl)%string
  /\ fst (analyze_project bare_host "") <>
       literal_output "" (groups bare_host "").
Proof.
  split; [reflexivity|]. vm_compute. discriminate.
Qed.

(** C5, amended: the output is the line
    [Analyzing project file: ] followed by
    [os.path.join(project_path, "project.pbxproj")], a blank line, the
    header [Duplicate Swift files found:], then for each name with two or
    more paths, in the order of the groups, a blank line, the name with a
    colon and each of its paths after ["  - "]; without such a name the
    header is followed by [No duplicate Swift files found.].  The joined
    path is the project path, a separator and [project.pbxproj] when the
    project path is not empty and does not end with a separator. *)
Theorem report_format (h : host) (project_path : string) :
  fst (analyze_project h project_path) =
    (banner (PosixPath.join project_path "project.pbxproj") ++ header
       ++ (if existsb is_duplicate (groups h project_path)
           then flat (map block (filter is_duplicate (groups h project_path)))
           else no_duplicates))%string
  /\ (project_path <> ""%string ->
      PyStr.endswith project_path "/" = false ->
      fst (analyze_project h project_path) =
        literal_output project_path (groups h project_path)).
Proof.
  rewrite analyze_project_report. cbn [fst]. split; [reflexivity|].
  intros Hne Hsl. unfold literal_output, banner.
  rewrite (join_literal project_path "project.pbxproj" Hne Hsl eq_refl).
  now rewrite !append_assoc.
Qed.

Lemma report_format_witness :
  "proj/App.xcodeproj"%string <> ""%string
  /\ PyStr.endswith "proj/App.xcodeproj" "/" = false
  /\ fst (analyze_project demo_host "proj/App.xcodeproj") =
       literal_output "proj/App.xcodeproj"
                      (groups demo_host "proj/App.xcodeproj").
Proof.
  assert (Hne : "proj/App.xcodeproj"%string <> ""%string) by discriminate.
  split; [exact Hne|]. split; [reflexivity|].
  exact (proj2 (report_format demo_host "proj/App.xcodeproj") Hne eq_refl).
Defined.

(** The sample tree printed. *)
Example demo_output :
  fst (analyze_project demo_host "proj/App.xcodeproj") =
    ("Analyzing project file: proj/App.xcodeproj/project.pbxproj" ++ nl
       ++ nl
       ++ "Duplicate Swift files found:" ++ nl
       ++ nl
       ++ "Foo.swift:" ++ nl
       ++ "  - proj/a/Foo.swift" ++ nl
       ++ "  - proj/b/Foo.swift" ++ nl)%string.
Proof. reflexivity. Qed.

(** ** C6: the command *)

(** C6: the command takes the project path from its first argument, or
    [FlowMaster.xcodeproj] without one, prints what [analyze_project]
    prints for it, and leaves with status 0 whether the scan returned
    [True] or [False]. *)
Theorem main_exit_status (h : host) (argv : list string) :
  snd (main h argv) = 0
  /\ fst (main h argv) = fst (analyze_project h (project_path_of argv))
  /\ (forall prog arg rest, project_path_of (prog :: arg :: rest) = arg)
  /\ (forall prog, project_path_of [prog] = "FlowMaster.xcodeproj"%string)
  /\ project_path_of [] = "FlowMaster.xcodeproj"%string.
Proof.
  unfold main.
  destruct (analyze_project h (project_path_of argv)) as [out b].
  repeat split.
Qed.

(** With and without duplicates the status is the same. *)
Example demo_exit_status :
  main demo_host ["analyze_project.py"; "proj/App.xcodeproj"]
    = (fst (analyze_project demo_host "proj/App.xcodeproj"), 0)
  /\ snd (analyze_project demo_host "proj/App.xcodeproj") = true
  /\ main bare_host ["analyze_project.py"]
     = (fst (analyze_project bare_host "FlowMaster.xcodeproj"), 0)
  /\ snd (analyze_project bare_host "FlowMaster.xcodeproj") = false.
Proof. repeat split. Qed.

(** ** C7: the scan reads names only *)

(** C7: on two hosts whose trees at the scan root agree up to the contents
    of their files, the scan builds the same groups, prints the same text
    and returns the same value; what the hosts hold elsewhere, the project
    file named in the first line included, has no part in it. *)
Theorem scan_reads_names_only (h1 h2 : host) (project_path : string) :
  option_map blank (h1 (PosixPath.dirname project_path))
    = option_map blank (h2 (PosixPath.dirname project_path)) ->
  groups h1 project_path = groups h2 project_path
  /\ analyze_project h1 project_path = analyze_project h2 project_path.
Proof.
  intros H. apply os_walk_blank in H.
  assert (Hg : groups h1 project_path = groups h2 project_path)
    by (unfold groups; now rewrite H).
  split; [exact Hg|].
  now rewrite !analyze_project_report, Hg.
Qed.

Lemma scan_reads_names_only_witness :
  option_map blank (demo_host (PosixPath.dirname "proj/App.xcodeproj"))
    = option_map blank (demo_host_edited (PosixPath.dirname "proj/App.xcodeproj"))
  /\ demo_host "proj/App.xcodeproj/project.pbxproj" = None
  /\ demo_host_edited "proj/App.xcodeproj/project.pbxproj"
       = Some (File "project.pbxproj" "// !$*UTF8*$!")
  /\ groups demo_host "proj/App.xcodeproj"
       = groups demo_host_edited "proj/App.xcodeproj"
  /\ analyze_project demo_host "proj/App.xcodeproj"
       = analyze_project demo_host_edited "proj/App.xcodeproj".
Proof.
  split; [reflexivity|]. split; [reflexivity|]. split; [reflexivity|].
  apply (scan_reads_names_only demo_host demo_host_edited "proj/App.xcodeproj").
  reflexivity.
Defined.

(** ** C8: directories that cannot be listed *)

Section ReadableDuplicates.

Lemma paths_named_app (k : string) (a b : list (string * string)) :
  paths_named k (a ++ b) = paths_named k a ++ paths_named k b.
Proof. unfold paths_named. now rewrite filter_app, map_app. Qed.

Lemma paths_named_present (k q : string) (l : list (string * string)) :
  In (k, q) l -> 1 <= List.length (paths_named k l).
Proof.
intros Hin. apply paths_named_In in Hin.
destruct (paths_named k l); [contradiction | simpl; lia].
Qed.

Lemma yielded_matching (w : list triple) (d : string)
      (dirs files : list string) (f : string) :
  In (d, dirs, files) w -> In f files ->
  PyStr.endswith f target_suffix = true ->
  In (f, PosixPath.join d f) (matching w).
Proof. intros Hw Hf Hs. apply matching_In. now exists d, dirs, files. Qed.

(** A matching file in a directory the walk lists is recorded under its
    name, whatever else of the tree cannot be listed. *)
Lemma listed_recorded (top : string) (n : node) (d f : string) :
  lists_file top n d f ->
  PyStr.endswith f target_suffix = true ->
  let m := matching (walk top n) in
  Dict.get f (scan (walk top n)) = Some (paths_named f m)
  /\ In (PosixPath.join d f) (paths_named f m).
Proof.
intros Hl Hs m.
apply walk_lists_file in Hl as [dirs [files [Hw Hf]]].
pose proof (yielded_matching _ d dirs files f Hw Hf Hs) as Hin.
split.
- rewrite scan_group_by. apply group_by_get.
  change f with (fst (f, PosixPath.join d f)). now apply in_map.
- now apply paths_named_In.
Qed.

(** The same name yielded for two directories makes a group of two paths
    or more. *)
Lemma yielded_twice (w : list triple) (d1 d2 : string)
      (dirs1 dirs2 files1 files2 : list string) (f : string) :
  In (d1, dirs1, files1) w -> In (d2, dirs2, files2) w -> d1 <> d2 ->
  In f files1 -> In f files2 ->
  PyStr.endswith f target_suffix = true ->
  2 <= List.length (paths_named f (matching w)).
Proof.
intros H1 H2 Hne Hf1 Hf2 Hs.
apply in_split in H1 as [l1 [l2 ->]].
assert (Hhere : 1 <= List.length
                       (paths_named f (matching [(d1, dirs1, files1)]))).
{ apply (paths_named_present f (PosixPath.join d1 f)).
  apply (yielded_matching _ d1 dirs1 files1); [now left | assumption..]. }
change (l1 ++ (d1, dirs1, files1) :: l2)
  with (l1 ++ [(d1, dirs1, files1)] ++ l2) in H2 |- *.
rewrite !matching_app, !paths_named_app, !length_app.
apply in_app_or in H2 as [H2|H2];
  [|apply in_app_or in H2 as [H2|H2]].
- assert (1 <= List.length (paths_named f (matching l1))).
  { apply (paths_named_present f (PosixPath.join d2 f)).
    now apply (yielded_matching _ d2 dirs2 files2). }
  lia.
- destruct H2 as [H2|[]]. congruence.
- assert (1 <= List.length (paths_named f (matching l2))).
  { apply (paths_named_present f (PosixPath.join d2 f)).
    now apply (yielded_matching _ d2 dirs2 files2). }
  lia.
Qed.

Lemma flat_middle (l1 l2 : list string) (x : string) :
  flat (l1 ++ x :: l2) = (flat l1 ++ x ++ flat l2)%string.
Proof.
induction l1 as [|y l1 IH]; [reflexivity|].
change (flat ((y :: l1) ++ x :: l2)) with (y ++ flat (l1 ++ x :: l2))%string.
change (flat (y :: l1)) with (y ++ flat l1)%string.
now rewrite IH, append_assoc.
Qed.

Lemma block_printed (item : string * list string) (d : Dict.t) :
  In item d -> is_duplicate item = true ->
  exists pre post,
    report_of d = (pre ++ block item ++ post)%string.
Proof.
intros Hin Hd. unfold report_of.
assert (Hex : existsb is_duplicate d = true)
  by (apply existsb_exists; now exists item).
rewrite Hex.
assert (Hf : In item (filter is_duplicate d)) by (apply filter_In; now split).
apply in_split in Hf as [l1 [l2 ->]].
exists (flat (map block l1)), (flat (map block l2)).
rewrite map_app. apply flat_middle.
Qed.

End ReadableDuplicates.

(** C8: a directory whose listing fails yields nothing and stops nothing.
    The walk yields its parent and goes on with the entries before and
    after it; every file ending with [.swift] in a directory the walk can
    list is recorded under its name; a name found in two such directories
    makes the scan return [True] and print the block of that name with
    both paths.  The groups, the text printed and the value returned are
    those of the tree in which every directory that cannot be listed is an
    empty directory that can, a tree on which no listing fails. *)
Theorem unreadable_skipped (h : host) (project_path : string) :
  let h' : host := fun q => option_map skip_unreadable (h q) in
  let top := PosixPath.dirname project_path in
  groups h' project_path = groups h project_path
  /\ analyze_project h' project_path = analyze_project h project_path
  /\ (forall n, all_readable (skip_unreadable n) = true)
  /\ (forall path nm entries, walk path (Dir nm false entries) = [])
  /\ (forall path nm before bad bad_entries after,
        walk path (Dir nm true (before ++ Dir bad false bad_entries :: after))
        = (path,
           dirs_of (before ++ Dir bad false bad_entries :: after),
           nondirs_of (before ++ after))
            :: flat_map (fun c => walk (PosixPath.join path (name_of c)) c)
                        before
            ++ flat_map (fun c => walk (PosixPath.join path (name_of c)) c)
                        after)
  /\ (forall n d f,
        h top = Some n ->
        lists_file top n d f ->
        PyStr.endswith f target_suffix = true ->
        exists ps,
          Dict.get f (groups h project_path) = Some ps
          /\ In (PosixPath.join d f) ps)
  /\ (forall n d1 d2 f,
        h top = Some n ->
        lists_file top n d1 f ->
        lists_file top n d2 f ->
        d1 <> d2 ->
        PyStr.endswith f target_suffix = true ->
        snd (analyze_project h project_path) = true
        /\ exists ps pre post,
             Dict.get f (groups h project_path) = Some ps
             /\ In (PosixPath.join d1 f) ps
             /\ In (PosixPath.join d2 f) ps
             /\ fst (analyze_project h project_path)
                = (pre ++ block (f, ps) ++ post)%string).
Proof.
intros h' top.
assert (Hg : groups h' project_path = groups h project_path).
{ unfold groups. rewrite !scan_group_by. unfold h'.
  now rewrite os_walk_skip_unreadable. }
split; [exact Hg|]. split; [now rewrite !analyze_project_report, Hg|].
split; [apply skip_unreadable_readable|]. split; [reflexivity|].
split; [|split].
- intros path nm before bad bad_entries after. rewrite walk_Dir.
  f_equal.
  + unfold nondirs_of. now rewrite !filter_app.
  + now rewrite flat_map_app.
- intros n d f Hroot Hl Hs.
  unfold groups, os_walk. fold top. rewrite Hroot.
  destruct (listed_recorded top n d f Hl Hs) as [Hget Hin].
  eexists. split; [exact Hget | exact Hin].
- intros n d1 d2 f Hroot Hl1 Hl2 Hne Hs.
  assert (Hgr : groups h project_path = scan (walk top n))
    by (unfold groups, os_walk; fold top; now rewrite Hroot).
  destruct (listed_recorded top n d1 f Hl1 Hs) as [Hget Hin1].
  destruct (listed_recorded top n d2 f Hl2 Hs) as [_ Hin2].
  set (ps := paths_named f (matching (walk top n))) in *.
  assert (Hdup : is_duplicate (f, ps) = true).
  { unfold is_duplicate. cbn [snd]. apply Nat.leb_le.
    apply walk_lists_file in Hl1 as [dirs1 [files1 [Hw1 Hf1]]].
    apply walk_lists_file in Hl2 as [dirs2 [files2 [Hw2 Hf2]]].
    exact (yielded_twice _ d1 d2 dirs1 dirs2 files1 files2 f
                         Hw1 Hw2 Hne Hf1 Hf2 Hs). }
  assert (Hitem : In (f, ps) (groups h project_path))
    by (rewrite Hgr; now apply get_In).
  rewrite analyze_project_report. cbn [fst snd]. split.
  + apply existsb_exists. now exists (f, ps).
  + destruct (block_printed (f, ps) (groups h project_path) Hitem Hdup)
      as [pre [post Hrep]].
    exists ps,
      (banner (PosixPath.join project_path "project.pbxproj")
         ++ header ++ pre)%string, post.
    split; [now rewrite Hgr|]. split; [exact Hin1|]. split; [exact Hin2|].
    rewrite Hrep. now rewrite !append_assoc.
Qed.

Lemma unreadable_skipped_witness :
  demo_host_reordered (PosixPath.dirname "proj/App.xcodeproj")
  = Some demo_tree_reordered
  /\ lists_file "proj" demo_tree_reordered "proj/b" "Foo.swift"
  /\ lists_file "proj" demo_tree_reordered "proj/a" "Foo.swift"
  /\ "proj/b"%string <> "proj/a"%string
  /\ PyStr.endswith "Foo.swift" target_suffix = true
  /\ snd (analyze_project demo_host_reordered "proj/App.xcodeproj") = true.
Proof.
assert (Hb : lists_file "proj" demo_tree_reordered "proj/b" "Foo.swift").
{ apply lists_below
    with (c := Dir "b" true [ File "X.SWIFT" ""; File "foo.swift" "";
                              File "Foo.swift" "2" ]).
  - simpl. tauto.
  - apply (lists_here "proj/b" "b"
                      [ File "X.SWIFT" ""; File "foo.swift" "";
                        File "Foo.swift" "2" ]
                      (File "Foo.swift" "2")).
    + simpl. tauto.
    + reflexivity. }
assert (Ha : lists_file "proj" demo_tree_reordered "proj/a" "Foo.swift").
{ apply lists_below
    with (c := Dir "a" true [ File "README.md" ""; File "Foo.swift" "1" ]).
  - simpl. tauto.
  - apply (lists_here "proj/a" "a"
                      [ File "README.md" ""; File "Foo.swift" "1" ]
                      (File "Foo.swift" "1")).
    + simpl. tauto.
    + reflexivity. }
assert (Hne : "proj/b"%string <> "proj/a"%string) by discriminate.
split; [reflexivity|]. split; [exact Hb|]. split; [exact Ha|].
split; [exact Hne|]. split; [reflexivity|].
destruct (unreadable_skipped demo_host_reordered "proj/App.xcodeproj")
  as [_ [_ [_ [_ [_ [_ Htwo]]]]]].
exact (proj1 (Htwo demo_tree_reordered "proj/b" "proj/a" "Foo.swift"
                   eq_refl Hb Ha Hne eq_refl)).
Defined.

(** In the sample tree the walk goes on past [secret] and the duplicate in
    [a] and [b] is reported. *)
Example demo_unreadable :
  groups demo_host "proj/App.xcodeproj"
  = groups (fun q => option_map skip_unreadable (demo_host q))
           "proj/App.xcodeproj"
  /\ snd (analyze_project demo_host "proj/App.xcodeproj") = true.
Proof. split; reflexivity. Qed.

(** ** C9: the scan comes to an end *)



(** A link back to the directory above it is listed among the directories
    of [proj] and the walk does not go through it. *)
Example demo_link_cycle :
  walk_loop 5 [("proj", Some demo_tree)] = Some (walk "proj" demo_tree)
  /\ In "loop" (snd (fst (hd ("", [], []) (walk "proj" demo_tree))))
  /\ List.length (walk "proj" demo_tree) = 3.
Proof. split; [reflexivity|]. split; [simpl; tauto | reflexivity]. Qed.

(** ** C10: the order of the report *)

(** C10: the groups stand in the order in which their names were first met
    in the walk, each with its paths in the order the walk yielded them,
    and the report prints the groups of two or more paths in that order,
    the paths of each in the order of its list.  A name that is met for the
    first time goes last among the names, a name met again stays where it
    is. *)
Theorem report_order (h : host) (project_path : string) :
  let m := matching (os_walk h (PosixPath.dirname project_path)) in
  let g := groups h project_path in
  g = map (fun k => (k, paths_named k m)) (first_seen (map fst m))
  /\ fst (analyze_project h project_path) =
       (banner (PosixPath.join project_path "project.pbxproj") ++ header
          ++ (if existsb is_duplicate g
              then flat (map (fun item =>
                                nl ++ fst item ++ ":" ++ nl
                                   ++ flat (map (fun path => "  - " ++ path ++ nl)
                                                (snd item)))
                             (filter is_duplicate g))
              else no_duplicates))%string
  /\ first_seen [] = []
  /\ (forall l k,
        first_seen (l ++ [k]) =
          if in_dec string_dec k l then first_seen l else first_seen l ++ [k]).
Proof.
  intros m g. split; [|split; [|split]].
  - unfold g, groups. now rewrite scan_group_by.
  - rewrite analyze_project_report. reflexivity.
  - reflexivity.
  - apply first_seen_snoc.
Qed.

(** A tree in which the duplicated names are met in the order [B], [A]. *)
Example report_order_sample :
  let h : host := fun p =>
    if String.eqb p "r" then
      Some (Dir "r" true
              [ File "B.swift" ""; File "A.swift" "";
                Dir "x" true [ File "A.swift" ""; File "B.swift" "" ] ])
    else None in
  fst (analyze_project h "r/App.xcodeproj") =
    ("Analyzing project file: r/App.xcodeproj/project.pbxproj" ++ nl ++ nl
       ++ "Duplicate Swift files found:" ++ nl
       ++ nl ++ "B.swift:" ++ nl
       ++ "  - r/B.swift" ++ nl ++ "  - r/x/B.swift" ++ nl
       ++ nl ++ "A.swift:" ++ nl
       ++ "  - r/A.swift" ++ nl ++ "  - r/x/A.swift" ++ nl)%string.
Proof. reflexivity. Qed.

(** * Further properties of the script *)

(** ** The scan root of a project path *)

Section ScanRoot.

Lemma append_inj_suffix (a b u v : string) :
  (a ++ u = b ++ v)%string -> String.length u = String.length v ->
  a = b /\ u = v.
Proof.
revert b. induction a as [|x a IH]; intros b H Hlen.
- destruct b as [|y b]; [now split|].
  simpl in H. apply (f_equal String.length) in H.
  simpl in H. rewrite append_length in H. lia.
- destruct b as [|y b].
  + simpl in H. apply (f_equal String.length) in H.
    simpl in H. rewrite append_length in H. lia.
  + simpl in H. injection H as -> H.
    destruct (IH b H Hlen) as [-> ->]. now split.
Qed.

Lemma append_inj_prefix (a u v : string) :
  (a ++ u = a ++ v)%string -> u = v.
Proof.
induction a as [|x a IH]; simpl; intros H; [assumption|].
injection H as H. auto.
Qed.

Lemma substring_prefix (a b : string) :
  substring 0 (String.length a) (a ++ b) = a.
Proof.
induction a as [|x a IH]; simpl.
- now destruct b.
- now rewrite IH.
Qed.

Lemma repeat_char_snoc (c : ascii) (n : nat) :
  PyStr.repeat_char c (S n) = (PyStr.repeat_char c n ++ String c "")%string.
Proof. induction n as [|n IH]; [reflexivity|]. simpl in *. now rewrite <- IH. Qed.

Lemma repeat_char_length (c : ascii) (n : nat) :
  String.length (PyStr.repeat_char c n) = n.
Proof. induction n as [|n IH]; simpl; [reflexivity | now rewrite IH]. Qed.

Lemma rstrip_other (d : string) (c : ascii) :
  PyStr.endswith d (String c "") = false -> PyStr.rstrip d c = d.
Proof.
induction d as [|x d IH]; [reflexivity|].
rewrite endswith_String. intros H. apply orb_false_iff in H as [Hx Hd].
cbn [PyStr.rstrip]. rewrite (IH Hd).
destruct d as [|y d]; [|reflexivity].
destruct (Ascii.eqb_spec x c) as [->|_]; [|reflexivity].
now rewrite String.eqb_refl in Hx.
Qed.

Lemma rstrip_snoc (d : string) (c : ascii) :
  PyStr.rstrip (d ++ String c "") c = PyStr.rstrip d c.
Proof.
induction d as [|x d IH].
- simpl. now rewrite Ascii.eqb_refl.
- change (String x d ++ String c "")%string with (String x (d ++ String c "")).
  cbn [PyStr.rstrip]. now rewrite IH.
Qed.

Lemma rfind_succ_after_sep (b : string) :
  no_sep b = true ->
  PyStr.rfind_succ (String PosixPath.sep b) PosixPath.sep = 1.
Proof.
intros Hb. cbn [PyStr.rfind_succ]. rewrite (rfind_succ_no_sep b Hb).
now rewrite Ascii.eqb_refl.
Qed.

Lemma dirname_no_sep (p : string) :
  no_sep p = true -> PosixPath.dirname p = ""%string.
Proof.
intros Hp. unfold PosixPath.dirname. rewrite (rfind_succ_no_sep p Hp).
now destruct p.
Qed.

Lemma dirname_parent (d b : string) :
  d <> ""%string ->
  PyStr.endswith d (String PosixPath.sep "") = false ->
  no_sep b = true ->
  PosixPath.dirname (d ++ String PosixPath.sep b) = d.
Proof.
intros Hd Hend Hb. unfold PosixPath.dirname.
set (head := (d ++ String PosixPath.sep "")%string).
assert (Hi : PyStr.rfind_succ (d ++ String PosixPath.sep b) PosixPath.sep
             = String.length head).
{ rewrite rfind_succ_app, (rfind_succ_after_sep b Hb). unfold head.
  now rewrite append_length. }
assert (Hhead : substring 0 (String.length head)
                          (d ++ String PosixPath.sep b) = head).
{ change (d ++ String PosixPath.sep b)%string
    with (d ++ (String PosixPath.sep "" ++ b))%string.
  rewrite <- append_assoc. apply substring_prefix. }
rewrite Hi, Hhead.
assert (Hne : String.eqb head "" = false).
{ apply String.eqb_neq. unfold head. destruct d; discriminate. }
assert (Hmix : String.eqb head
                 (PyStr.repeat_char PosixPath.sep (String.length head)) = false).
{ apply String.eqb_neq. intros Hall. unfold head in Hall.
  rewrite append_length in Hall. simpl String.length in Hall.
  rewrite Nat.add_1_r, repeat_char_snoc in Hall.
  apply append_inj_suffix in Hall as [Hall _]; [|reflexivity].
  destruct (String.length d) as [|m] eqn:Hlen.
  - destruct d; [now apply Hd | discriminate].
  - rewrite repeat_char_snoc in Hall.
    assert (Hyes : PyStr.endswith d (String PosixPath.sep "") = true)
      by (apply endswith_spec; eauto).
    congruence. }
rewrite Hne, Hmix. simpl andb. cbv iota.
unfold head. rewrite rstrip_snoc. now apply rstrip_other.
Qed.

End ScanRoot.

(** X1: a project path without a separator has the empty string as its
    scan root; on a host where the empty path names no directory the scan
    then finds nothing, whatever the tree around the project holds, and so
    does the command run without an argument. *)
Theorem path_without_directory (h : host) (project_path : string) :
  no_sep project_path = true ->
  h ""%string = None ->
  PosixPath.dirname project_path = ""%string
  /\ groups h project_path = []
  /\ analyze_project h project_path =
       ((banner (PosixPath.join project_path "project.pbxproj")
           ++ header ++ no_duplicates)%string,
        false)
  /\ forall prog,
       main h [prog] =
         ((banner "FlowMaster.xcodeproj/project.pbxproj"
             ++ header ++ no_duplicates)%string,
          0).
Proof.
intros Hp Hroot.
assert (Hempty : forall q, no_sep q = true -> groups h q = []).
{ intros q Hq. unfold groups, os_walk.
  now rewrite (dirname_no_sep q Hq), Hroot. }
split; [now apply dirname_no_sep|]. split; [now apply Hempty|]. split.
- rewrite analyze_project_report, (Hempty project_path Hp). reflexivity.
- intros prog. unfold main.
  change (project_path_of [prog]) with "FlowMaster.xcodeproj"%string.
  rewrite analyze_project_report, (Hempty "FlowMaster.xcodeproj"%string eq_refl).
  reflexivity.
Qed.

Lemma path_without_directory_witness :
  no_sep "App.xcodeproj" = true
  /\ demo_host ""%string = None
  /\ groups demo_host "App.xcodeproj" = [].
Proof.
split; [reflexivity|]. split; [reflexivity|].
exact (proj1 (proj2 (path_without_directory demo_host "App.xcodeproj"
                       eq_refl eq_refl))).
Defined.

(** X2: for a project path made of a directory, a separator and a name
    without separator, the scan root is that directory; the groups and the
    value returned are those of the walk of the directory and do not depend
    on the name.  With nothing after the separator the scan root is the
    path without its last separator, the project bundle itself. *)
Theorem scan_root_is_parent (h : host) (d b : string) :
  d <> ""%string ->
  PyStr.endswith d "/" = false ->
  no_sep b = true ->
  PosixPath.dirname (d ++ "/" ++ b) = d
  /\ PosixPath.dirname (d ++ "/") = d
  /\ groups h (d ++ "/" ++ b) = scan (os_walk h d)
  /\ snd (analyze_project h (d ++ "/" ++ b))
     = existsb is_duplicate (scan (os_walk h d)).
Proof.
intros Hd Hend Hb.
assert (H1 : PosixPath.dirname (d ++ "/" ++ b) = d)
  by (apply (dirname_parent d b); assumption).
assert (H2 : groups h (d ++ "/" ++ b) = scan (os_walk h d))
  by (unfold groups; now rewrite H1).
split; [exact H1|]. split; [|split; [exact H2|]].
- apply (dirname_parent d ""); [assumption | assumption | reflexivity].
- rewrite analyze_project_report. cbn [snd]. now rewrite H2.
Qed.

Lemma scan_root_is_parent_witness :
  "proj"%string <> ""%string
  /\ PyStr.endswith "proj" "/" = false
  /\ no_sep "Other.xcodeproj" = true
  /\ groups demo_host ("proj" ++ "/" ++ "Other.xcodeproj")
     = scan (os_walk demo_host "proj").
Proof.
assert (Hd : "proj"%string <> ""%string) by discriminate.
split; [exact Hd|]. split; [reflexivity|]. split; [reflexivity|].
exact (proj1 (proj2 (proj2 (scan_root_is_parent demo_host "proj"
                              "Other.xcodeproj" Hd eq_refl eq_refl)))).
Defined.

(** ** The paths the scan records *)

Section RecordedPaths.

Lemma distinct_NoDup (l : list string) : distinct l = true -> NoDup l.
Proof.
induction l as [|x l IH]; simpl; intros H; constructor;
  apply andb_true_iff in H as [Hx Hl]; [|auto].
intros Hin. apply negb_true_iff in Hx.
assert (Hex : existsb (String.eqb x) l = true).
{ apply existsb_exists. exists x. split; [assumption | apply String.eqb_refl]. }
congruence.
Qed.

Lemma entry_ok_root_ok (n : node) : entry_ok n = true -> root_ok n = true.
Proof.
destruct n as [nm c|nm t d|nm r entries]; try reflexivity.
simpl. intros H. now apply andb_true_iff in H as [_ H].
Qed.

Lemma entry_ok_name (n : node) :
  entry_ok n = true -> no_sep (name_of n) = true /\ name_of n <> ""%string.
Proof.
intros H.
assert (H' : no_sep (name_of n) && negb (String.eqb (name_of n) "") = true).
{ destruct n; simpl in H |- *; apply andb_true_iff in H as [H _]; exact H. }
apply andb_true_iff in H' as [H1 H2]. split; [exact H1|].
apply negb_true_iff in H2. now apply String.eqb_neq.
Qed.

Lemma no_sep_app (a b : string) :
  no_sep (a ++ b) = no_sep a && no_sep b.
Proof.
induction a as [|x a IH]; [reflexivity|].
change (String x a ++ b)%string with (String x (a ++ b)).
cbn [no_sep]. now rewrite IH, andb_assoc.
Qed.

Lemma no_sep_sep (a b : string) :
  no_sep (a ++ String PosixPath.sep b) = false.
Proof.
rewrite no_sep_app. cbn [no_sep]. rewrite Ascii.eqb_refl.
apply andb_false_r.
Qed.

(** A name without separator is known from what follows it up to the
    next separator. *)
Lemma name_before_sep (a b r s : string) :
  no_sep a = true -> no_sep b = true ->
  (a ++ String PosixPath.sep r = b ++ String PosixPath.sep s)%string ->
  a = b.
Proof.
revert b. induction a as [|x a IH]; intros b Ha Hb H.
- destruct b as [|y b]; [reflexivity|].
  simpl in H. injection H as Hy _. subst y.
  apply no_sep_String in Hb as [Hb _]. now rewrite Ascii.eqb_refl in Hb.
- destruct b as [|y b].
  + simpl in H. injection H as Hx _. subst x.
    apply no_sep_String in Ha as [Ha _]. now rewrite Ascii.eqb_refl in Ha.
  + simpl in H. injection H as -> H.
    apply no_sep_String in Ha as [_ Ha]. apply no_sep_String in Hb as [_ Hb].
    now rewrite (IH b Ha Hb H).
Qed.

Lemma join_slashed (top f : string) :
  no_sep f = true -> PosixPath.join top f = (slashed top ++ f)%string.
Proof.
intros Hf. unfold PosixPath.join, slashed.
rewrite (startswith_no_sep f Hf).
destruct (String.eqb top "" || PyStr.endswith top (String PosixPath.sep ""));
  [reflexivity|].
now rewrite append_assoc.
Qed.

Lemma slashed_prefix (top : string) : exists s, slashed top = (top ++ s)%string.
Proof.
unfold slashed.
destruct (String.eqb top "" || PyStr.endswith top (String PosixPath.sep "")).
- exists ""%string. now rewrite append_empty_r.
- now exists (String PosixPath.sep "").
Qed.

Lemma not_endswith_sep (x c : string) :
  no_sep c = true -> c <> ""%string ->
  PyStr.endswith (x ++ c) (String PosixPath.sep "") = false.
Proof.
intros Hc Hne. apply not_true_is_false. intros H.
apply endswith_spec in H as [pre H].
assert (Hlast : exists c', c = (c' ++ String PosixPath.sep "")%string).
{ clear Hc. revert pre H. induction x as [|y x IH]; intros pre H.
  - now exists pre.
  - destruct pre as [|z pre].
    + simpl in H. injection H as _ H. destruct x; [|discriminate].
      simpl in H. congruence.
    + simpl in H. injection H as _ H. now apply (IH pre). }
destruct Hlast as [c' ->]. now rewrite no_sep_sep in Hc.
Qed.

Lemma slashed_name (x c : string) :
  no_sep c = true -> c <> ""%string ->
  slashed (x ++ c) = (x ++ c ++ String PosixPath.sep "")%string.
Proof.
intros Hc Hne. unfold slashed. rewrite (not_endswith_sep x c Hc Hne).
assert (Hx : String.eqb (x ++ c) "" = false).
{ apply String.eqb_neq. destruct x; [simpl; assumption | discriminate]. }
rewrite Hx. simpl orb. cbv iota. apply append_assoc.
Qed.

Lemma all_files_app (w1 w2 : list triple) :
  all_files (w1 ++ w2) = all_files w1 ++ all_files w2.
Proof. apply flat_map_app. Qed.

Lemma forallb_entry_names (entries : list node) (f : string) :
  forallb entry_ok entries = true -> In f (nondirs_of entries) ->
  no_sep f = true.
Proof.
intros Hall Hf. apply nondirs_of_In in Hf as [e [He [_ <-]]].
rewrite forallb_forall in Hall. now apply entry_ok_name, Hall.
Qed.

(** On a tree as a file system holds it, the paths the script builds are
    the prefix of the scan root followed by the names down to the file. *)
Lemma all_files_walk (n : node) :
  forall top,
    root_ok n = true -> all_files (walk top n) = files_in (slashed top) n.
Proof.
induction n as [nm c|nm t dd|nm r entries IH] using node_ind_entries;
  intros top Hok; try reflexivity.
destruct r; [|reflexivity].
simpl in Hok. apply andb_true_iff in Hok as [_ Hall].
rewrite walk_Dir. change (?t :: ?w) with ([t] ++ w).
rewrite all_files_app. cbn [files_in]. f_equal.
- unfold all_files. simpl. rewrite app_nil_r. apply map_ext_in.
  intros f Hf. f_equal. apply join_slashed.
  exact (forallb_entry_names entries f Hall Hf).
- rewrite forallb_forall in Hall. rewrite Forall_forall in IH.
  clear - Hall IH.
  assert (Hsub : forall l, incl l entries ->
            all_files (flat_map
                         (fun c => walk (PosixPath.join top (name_of c)) c) l)
            = flat_map
                (fun c => files_in
                            (slashed top ++ name_of c ++ String PosixPath.sep "") c)
                l).
  { induction l as [|c l IHl]; intros Hincl; [reflexivity|].
    simpl. rewrite all_files_app, IHl
      by (intros x Hx; apply Hincl; now right).
    f_equal.
    assert (Hc : In c entries) by (apply Hincl; now left).
    destruct (entry_ok_name c (Hall c Hc)) as [Hn Hne].
    rewrite (IH c Hc) by (apply entry_ok_root_ok; auto).
    now rewrite (join_slashed top _ Hn), (slashed_name _ _ Hn Hne). }
  apply Hsub. apply incl_refl.
Qed.

Lemma files_in_prefix (n : node) :
  forall prefix e,
    In e (files_in prefix n) -> exists r, snd e = (prefix ++ r)%string.
Proof.
induction n as [nm c|nm t dd|nm r entries IH] using node_ind_entries;
  intros prefix e Hin; try contradiction.
destruct r; [|contradiction].
cbn [files_in] in Hin. apply in_app_or in Hin as [Hin|Hin].
- apply in_map_iff in Hin as [f [<- _]]. now exists f.
- apply in_flat_map in Hin as [c [Hc Hin]].
  rewrite Forall_forall in IH.
  destruct (IH c Hc _ e Hin) as [r' Hr].
  exists (name_of c ++ String PosixPath.sep "" ++ r')%string.
  rewrite Hr. now rewrite !append_assoc.
Qed.

End RecordedPaths.

Section DistinctPaths.

Lemma NoDup_map_filter {X Y : Type} (g : X -> Y) (keep : X -> bool) :
  forall xs, NoDup (map g xs) -> NoDup (map g (filter keep xs)).
Proof.
induction xs as [|a xs IH]; simpl; intros H; [constructor|].
inversion H as [|? ? Hnotin Hnd]; subst.
destruct (keep a); simpl; [|auto].
constructor; [|auto].
intros Hin. apply Hnotin. apply in_map_iff in Hin as [x [Hx Hin]].
apply filter_In in Hin as [Hin _]. apply in_map_iff. now exists x.
Qed.

Lemma files_in_child (prefix : string) (c : node) (q : string) :
  In q (map snd (files_in (prefix ++ name_of c ++ String PosixPath.sep "") c)) ->
  exists r, q = (prefix ++ name_of c ++ String PosixPath.sep r)%string.
Proof.
intros Hin. apply in_map_iff in Hin as [e [<- Hin]].
apply files_in_prefix in Hin as [r ->]. exists r.
now rewrite !append_assoc.
Qed.

(** On a tree as a file system holds it no path is built twice. *)
Lemma files_in_NoDup (n : node) :
  forall prefix, root_ok n = true -> NoDup (map snd (files_in prefix n)).
Proof.
induction n as [nm c|nm t dd|nm r entries IH] using node_ind_entries;
  intros prefix Hok; try constructor.
destruct r; [|constructor].
simpl in Hok. apply andb_true_iff in Hok as [Hdist Hall].
apply distinct_NoDup in Hdist.
cbn [files_in]. rewrite map_app. apply NoDup_app.
- rewrite map_map. simpl.
  apply NoDup_map_NoDup_ForallPairs.
  + intros x y _ _ H. exact (append_inj_prefix prefix x y H).
  + unfold nondirs_of. now apply NoDup_map_filter.
- rewrite forallb_forall in Hall. rewrite Forall_forall in IH.
  clear - Hdist Hall IH.
  assert (Hsub : forall l, incl l entries -> NoDup (map name_of l) ->
            NoDup (map snd
                     (flat_map
                        (fun c => files_in
                                    (prefix ++ name_of c ++ String PosixPath.sep "") c)
                        l))).
  { induction l as [|c l IHl]; intros Hincl Hnd; [constructor|].
    simpl in Hnd |- *. inversion Hnd as [|? ? Hnotin Hnd']; subst.
    assert (Hc : In c entries) by (apply Hincl; now left).
    rewrite map_app. apply NoDup_app.
    - apply (IH c Hc). apply entry_ok_root_ok. auto.
    - apply IHl; [|assumption]. intros x Hx. apply Hincl. now right.
    - intros q Hq Hq'. apply files_in_child in Hq as [r Hr].
      apply in_map_iff in Hq' as [e [He Hin]].
      apply in_flat_map in Hin as [c' [Hc' Hin]].
      assert (Hq' : In q (map snd
                  (files_in (prefix ++ name_of c' ++ String PosixPath.sep "") c')))
        by (apply in_map_iff; now exists e).
      apply files_in_child in Hq' as [r' Hr'].
      rewrite Hr in Hr'. apply append_inj_prefix in Hr'.
      assert (Hc'' : In c' entries) by (apply Hincl; now right).
      apply name_before_sep in Hr';
        [|apply entry_ok_name; auto | apply entry_ok_name; auto].
      apply Hnotin. rewrite Hr'. now apply in_map. }
  apply Hsub; [apply incl_refl | assumption].
- intros q Hq Hq'. rewrite map_map in Hq. simpl in Hq.
  apply in_map_iff in Hq as [f [<- Hf]].
  apply in_map_iff in Hq' as [e [He Hin]].
  apply in_flat_map in Hin as [c [Hc Hin]].
  assert (Hq' : In (prefix ++ f)%string (map snd
              (files_in (prefix ++ name_of c ++ String PosixPath.sep "") c)))
    by (apply in_map_iff; now exists e).
  apply files_in_child in Hq' as [r Hr].
  apply append_inj_prefix in Hr.
  assert (Hno : no_sep f = true) by exact (forallb_entry_names entries f Hall Hf).
  rewrite Hr, no_sep_sep in Hno. discriminate.
Qed.

Lemma filter_map_swap {A B : Type} (g : A -> B) (p : B -> bool) (l : list A) :
  filter p (map g l) = map g (filter (fun a => p (g a)) l).
Proof.
induction l as [|a l IH]; simpl; [reflexivity|].
destruct (p (g a)); simpl; now rewrite IH.
Qed.

Lemma matching_filter (w : list triple) :
  matching w =
    filter (fun e => PyStr.endswith (fst e) target_suffix) (all_files w).
Proof.
unfold matching, all_files.
induction w as [|[[root dirs] files] w IH]; [reflexivity|].
simpl flat_map. rewrite filter_app, <- IH. f_equal.
unfold matching_of. now rewrite filter_map_swap.
Qed.

Lemma matching_NoDup (top : string) (n : node) :
  root_ok n = true -> NoDup (map snd (matching (walk top n))).
Proof.
intros Hok. rewrite matching_filter. apply NoDup_map_filter.
rewrite (all_files_walk n top Hok). now apply files_in_NoDup.
Qed.

Lemma matching_under_top (top : string) (n : node) (e : string * string) :
  root_ok n = true -> In e (matching (walk top n)) ->
  exists r, snd e = (top ++ r)%string.
Proof.
intros Hok Hin. rewrite matching_filter in Hin.
apply filter_In in Hin as [Hin _].
rewrite (all_files_walk n top Hok) in Hin.
apply files_in_prefix in Hin as [r ->].
destruct (slashed_prefix top) as [s ->].
exists (s ++ r)%string. apply append_assoc.
Qed.

End DistinctPaths.

(** X3: when the scan root resolves to a tree as a file system holds it
    (names not empty and without separator, no two entries of a directory
    with the same name), no path is recorded twice: the paths of all groups
    together are pairwise different, so the paths printed under a name are
    different files. *)
Theorem recorded_paths_distinct (h : host) (project_path : string) (n : node) :
  h (PosixPath.dirname project_path) = Some n ->
  root_ok n = true ->
  NoDup (concat (Dict.values (groups h project_path)))
  /\ forall k ps, In (k, ps) (groups h project_path) -> NoDup ps.
Proof.
intros Hroot Hok.
assert (Hw : os_walk h (PosixPath.dirname project_path)
             = walk (PosixPath.dirname project_path) n)
  by (unfold os_walk; now rewrite Hroot).
pose proof (matching_NoDup (PosixPath.dirname project_path) n Hok) as Hnd.
split.
- apply (Permutation_NoDup
           (l := map snd (matching (walk (PosixPath.dirname project_path) n))));
    [|assumption].
  symmetry. unfold groups. rewrite Hw. apply scan_permutation.
- intros k ps Hin. unfold groups in Hin.
  rewrite Hw, scan_group_by in Hin. apply group_by_In in Hin as [_ ->].
  unfold paths_named. now apply NoDup_map_filter.
Qed.

Lemma recorded_paths_distinct_witness :
  demo_host (PosixPath.dirname "proj/App.xcodeproj") = Some demo_tree
  /\ root_ok demo_tree = true
  /\ NoDup (concat (Dict.values (groups demo_host "proj/App.xcodeproj"))).
Proof.
split; [reflexivity|]. split; [reflexivity|].
exact (proj1 (recorded_paths_distinct demo_host "proj/App.xcodeproj" demo_tree
                eq_refl eq_refl)).
Defined.

(** X4: on such a tree every recorded path begins with the scan root, so
    the report names files by relative paths exactly when the scan root is
    relative. *)
Theorem recorded_paths_under_root (h : host) (project_path : string)
        (n : node) :
  h (PosixPath.dirname project_path) = Some n ->
  root_ok n = true ->
  forall k ps q,
    In (k, ps) (groups h project_path) -> In q ps ->
    PyStr.startswith q (PosixPath.dirname project_path) = true.
Proof.
intros Hroot Hok k ps q Hin Hq.
unfold groups, os_walk in Hin. rewrite Hroot, scan_group_by in Hin.
apply group_by_In in Hin as [_ ->]. apply paths_named_In in Hq.
apply startswith_spec.
exact (matching_under_top _ n (k, q) Hok Hq).
Qed.

Lemma recorded_paths_under_root_witness :
  demo_host (PosixPath.dirname "proj/App.xcodeproj") = Some demo_tree
  /\ root_ok demo_tree = true
  /\ PyStr.startswith "proj/b/Foo.swift"
                      (PosixPath.dirname "proj/App.xcodeproj") = true.
Proof.
split; [reflexivity|]. split; [reflexivity|].
apply (recorded_paths_under_root demo_host "proj/App.xcodeproj" demo_tree
         eq_refl eq_refl "Foo.swift" ["proj/a/Foo.swift"; "proj/b/Foo.swift"]).
- rewrite demo_groups. simpl. tauto.
- simpl. tauto.
Defined.

(** ** The value returned and the names the walk meets *)

Section NameMetTwice.

Lemma filter_one {A : Type} (p : A -> bool) (l : list A) :
  1 <= List.length (filter p l) ->
  exists b l2 l3, l = l2 ++ b :: l3 /\ p b = true.
Proof.
intros H. destruct (filter p l) as [|b rest] eqn:E; [simpl in H; lia|].
assert (Hin : In b (filter p l)) by (rewrite E; now left).
apply filter_In in Hin as [Hin Hb].
apply in_split in Hin as [l2 [l3 ->]]. now exists b, l2, l3.
Qed.

Lemma filter_two {A : Type} (p : A -> bool) (l : list A) :
  2 <= List.length (filter p l) ->
  exists a b l1 l2 l3,
    l = l1 ++ a :: l2 ++ b :: l3 /\ p a = true /\ p b = true.
Proof.
induction l as [|x l IH]; simpl; intros H; [lia|].
destruct (p x) eqn:Hx.
- simpl in H. apply le_S_n in H.
  destruct (filter_one p l H) as [b [l2 [l3 [-> Hb]]]].
  now exists x, b, [], l2, l3.
- destruct (IH H) as [a [b [l1 [l2 [l3 [-> [Ha Hb]]]]]]].
  now exists a, b, (x :: l1), l2, l3.
Qed.

Lemma paths_named_twice (k q1 q2 : string) (l1 l2 l3 : list (string * string)) :
  2 <= List.length (paths_named k (l1 ++ (k, q1) :: l2 ++ (k, q2) :: l3)).
Proof.
unfold paths_named. rewrite length_map, filter_app, length_app.
cbn [filter fst]. rewrite String.eqb_refl. cbn [List.length].
rewrite filter_app, length_app. cbn [filter fst]. rewrite String.eqb_refl.
cbn [List.length]. lia.
Qed.

Lemma paths_of_group_by (k : string) (l : list (string * string)) :
  paths_of k (group_by l) = paths_named k l.
Proof.
unfold paths_of. destruct (in_dec string_dec k (map fst l)) as [Hin|Hnotin].
- now rewrite group_by_get.
- rewrite (paths_named_absent k l Hnotin).
  destruct (Dict.get k (group_by l)) as [ps|] eqn:E; [|reflexivity].
  apply get_In, group_by_In in E as [Hin _]. contradiction.
Qed.

End NameMetTwice.

(** X5: the scan returns [True] exactly when the walk meets two files with
    the same name among those that end with [.swift]: two places of the
    walk, the name the same, wherever the directories are. *)
Theorem flag_iff_name_met_twice (h : host) (project_path : string) :
  snd (analyze_project h project_path) = true <->
  exists k q1 q2 l1 l2 l3,
    matching (os_walk h (PosixPath.dirname project_path))
    = l1 ++ (k, q1) :: l2 ++ (k, q2) :: l3.
Proof.
rewrite analyze_project_report. cbn [snd]. rewrite is_duplicate_exists.
unfold groups. rewrite scan_group_by.
set (m := matching (os_walk h (PosixPath.dirname project_path))).
split.
- intros [k [ps [Hin Hlen]]]. apply group_by_In in Hin as [_ ->].
  unfold paths_named in Hlen. rewrite length_map in Hlen.
  destruct (filter_two _ m Hlen)
    as [[k1 q1] [[k2 q2] [l1 [l2 [l3 [Hm [H1 H2]]]]]]].
  simpl in H1, H2. apply String.eqb_eq in H1, H2. subst k1 k2.
  now exists k, q1, q2, l1, l2, l3.
- intros [k [q1 [q2 [l1 [l2 [l3 Hm]]]]]].
  exists k, (paths_named k m). split.
  + apply group_by_In. split; [|reflexivity].
    rewrite Hm, map_app. apply in_or_app. right. now left.
  + rewrite Hm. apply paths_named_twice.
Qed.

Lemma flag_iff_name_met_twice_witness :
  snd (analyze_project demo_host "proj/App.xcodeproj") = true.
Proof.
apply (flag_iff_name_met_twice demo_host "proj/App.xcodeproj").
exists "Foo.swift"%string, "proj/a/Foo.swift"%string, "proj/b/Foo.swift"%string,
  [("Bar.swift", "proj/Bar.swift")]%string, [],
  [("foo.swift", "proj/b/foo.swift")]%string.
reflexivity.
Defined.

(** ** The order in which a file system lists its entries *)

Section Reordering.

Lemma Permutation_filter {A : Type} (p : A -> bool) (l l' : list A) :
  Permutation l l' -> Permutation (filter p l) (filter p l').
Proof.
induction 1 as [|x l l' H IH|x y l|l l' l'' H1 IH1 H2 IH2]; simpl.
- constructor.
- destruct (p x); [now constructor | assumption].
- destruct (p x), (p y); try reflexivity. apply perm_swap.
- now transitivity (filter p l').
Qed.

Lemma reordered_name (n n' : node) :
  reordered n n' -> name_of n = name_of n' /\ is_dir n = is_dir n'.
Proof. intros H. destruct H; now split. Qed.

Lemma reordered_names (p : node -> bool) (l l' : list node) :
  (forall n n', reordered n n' -> p n = p n') ->
  Forall2 reordered l l' ->
  map name_of (filter p l) = map name_of (filter p l').
Proof.
intros Hp H. induction H as [|n n' l l' Hn Hl IH]; [reflexivity|].
simpl. rewrite <- (Hp n n' Hn).
destruct (p n); simpl; rewrite ?IH; [|reflexivity].
f_equal. now apply reordered_name.
Qed.

Lemma matching_flat_map_walk {A : Type} (f : A -> list triple) (l : list A) :
  matching (flat_map f l) = flat_map (fun a => matching (f a)) l.
Proof.
induction l as [|a l IH]; [reflexivity|].
simpl. now rewrite matching_app, IH.
Qed.

Lemma matching_single (t : triple) : matching [t] = matching_of t.
Proof. unfold matching. simpl. apply app_nil_r. Qed.

Lemma matching_of_Permutation (root : string) (dirs dirs' files files' : list string) :
  Permutation files files' ->
  Permutation (matching_of (root, dirs, files)) (matching_of (root, dirs', files')).
Proof.
intros H. unfold matching_of. apply Permutation_map.
now apply Permutation_filter.
Qed.

(** Listing the entries of the directories in another order permutes the
    matching files of the walk. *)
Lemma reordered_matching (n : node) :
  forall n' top,
    reordered n n' ->
    Permutation (matching (walk top n)) (matching (walk top n')).
Proof.
induction n as [nm c|nm t dd|nm r entries IH] using node_ind_entries;
  intros n' top H; inversion H as [| |? ? ? entries1 entries2 H1 H2]; subst;
  try reflexivity.
destruct r; [|reflexivity].
rewrite !walk_Dir. change (?t :: ?w) with ([t] ++ w).
rewrite !matching_app. apply Permutation_app.
- rewrite !matching_single.
  apply matching_of_Permutation. unfold nondirs_of.
  rewrite (reordered_names (fun n => negb (is_dir n)) entries entries1);
    [|intros a b Hab; f_equal; now apply reordered_name | assumption].
  apply Permutation_map. now apply Permutation_filter.
- rewrite !matching_flat_map_walk.
  transitivity (flat_map
                  (fun c => matching (walk (PosixPath.join top (name_of c)) c))
                  entries1).
  + clear H H2. rewrite Forall_forall in IH.
    induction H1 as [|c c1 l l1 Hc Hl IHl]; [reflexivity|].
    simpl. apply Permutation_app.
    * destruct (reordered_name c c1 Hc) as [<- _].
      apply IH; [now left | assumption].
    * apply IHl. intros x Hx. apply IH. now right.
  + now apply Permutation_flat_map.
Qed.

Lemma group_by_Permutation (m1 m2 : list (string * string)) :
  Permutation m1 m2 ->
  existsb is_duplicate (group_by m1) = existsb is_duplicate (group_by m2)
  /\ Permutation (Dict.keys (group_by m1)) (Dict.keys (group_by m2))
  /\ forall k, Permutation (paths_named k m1) (paths_named k m2).
Proof.
intros H.
assert (Hpaths : forall m m', Permutation m m' ->
          forall k, Permutation (paths_named k m) (paths_named k m')).
{ intros m m' Hm k. unfold paths_named. apply Permutation_map.
  now apply Permutation_filter. }
assert (Hflag : forall m m', Permutation m m' ->
          existsb is_duplicate (group_by m) = true ->
          existsb is_duplicate (group_by m') = true).
{ intros m m' Hm. rewrite !is_duplicate_exists.
  intros [k [ps [Hin Hlen]]]. apply group_by_In in Hin as [Hk ->].
  exists k, (paths_named k m'). split.
  - apply group_by_In. split; [|reflexivity].
    apply (Permutation_in k (Permutation_map fst Hm) Hk).
  - now rewrite <- (Permutation_length (Hpaths m m' Hm k)). }
split; [|split].
- apply eq_true_iff_eq. split; apply Hflag; [assumption | now symmetry].
- rewrite !group_by_keys. apply NoDup_Permutation; try apply first_seen_NoDup.
  intros k. rewrite !first_seen_In.
  split; apply Permutation_in; apply Permutation_map;
    [assumption | now symmetry].
- now apply Hpaths.
Qed.

End Reordering.

(** X6: the order in which the directories list their entries has no part
    in what is found: on two trees that differ only in that order the scan
    returns the same value, builds groups for the same names, and records
    the same paths under each name, up to their order. *)
Theorem listing_order_irrelevant (h1 h2 : host) (project_path : string)
        (n1 n2 : node) :
  h1 (PosixPath.dirname project_path) = Some n1 ->
  h2 (PosixPath.dirname project_path) = Some n2 ->
  reordered n1 n2 ->
  snd (analyze_project h1 project_path) = snd (analyze_project h2 project_path)
  /\ Permutation (Dict.keys (groups h1 project_path))
                 (Dict.keys (groups h2 project_path))
  /\ forall k, Permutation (paths_of k (groups h1 project_path))
                           (paths_of k (groups h2 project_path)).
Proof.
intros H1 H2 Hre.
pose proof (reordered_matching n1 n2 (PosixPath.dirname project_path) Hre) as Hm.
apply group_by_Permutation in Hm as [Hflag [Hkeys Hpaths]].
rewrite !analyze_project_report. cbn [snd].
unfold groups, os_walk. rewrite H1, H2, !scan_group_by.
split; [exact Hflag|]. split; [exact Hkeys|].
intros k. rewrite !paths_of_group_by. apply Hpaths.
Qed.

Lemma listing_order_irrelevant_witness :
  demo_host (PosixPath.dirname "proj/App.xcodeproj") = Some demo_tree
  /\ demo_host_reordered (PosixPath.dirname "proj/App.xcodeproj")
     = Some demo_tree_reordered
  /\ reordered demo_tree demo_tree_reordered
  /\ snd (analyze_project demo_host "proj/App.xcodeproj")
     = snd (analyze_project demo_host_reordered "proj/App.xcodeproj").
Proof.
assert (Hre : reordered demo_tree demo_tree_reordered).
{ apply reordered_dir
    with (entries1 :=
            [ File "Bar.swift" "bar";
              Dir "a" true [ File "README.md" ""; File "Foo.swift" "1" ];
              Symlink "loop" ".." true;
              Dir "b" true [ File "X.SWIFT" ""; File "foo.swift" "";
                             File "Foo.swift" "2" ];
              Dir "secret" false [ File "Foo.swift" "3" ] ]).
  - repeat constructor.
    + apply reordered_dir
        with (entries1 := [ File "Foo.swift" "1"; File "README.md" "" ]).
      * repeat constructor.
      * apply perm_swap.
    + apply reordered_dir
        with (entries1 := [ File "Foo.swift" "2"; File "foo.swift" "";
                            File "X.SWIFT" "" ]).
      * repeat constructor.
      * apply (Permutation_rev [ File "Foo.swift" "2"; File "foo.swift" "";
                                 File "X.SWIFT" "" ]).
    + apply reordered_dir with (entries1 := [ File "Foo.swift" "3" ]).
      * repeat constructor.
      * reflexivity.
  - exact (Permutation_rev
             [ File "Bar.swift" "bar";
               Dir "a" true [ File "README.md" ""; File "Foo.swift" "1" ];
               Symlink "loop" ".." true;
               Dir "b" true [ File "X.SWIFT" ""; File "foo.swift" "";
                              File "Foo.swift" "2" ];
               Dir "secret" false [ File "Foo.swift" "3" ] ]). }
split; [reflexivity|]. split; [reflexivity|]. split; [exact Hre|].
exact (proj1 (listing_order_irrelevant demo_host demo_host_reordered
                "proj/App.xcodeproj" demo_tree demo_tree_reordered
                eq_refl eq_refl Hre)).
Defined.

(** ** The last line of the report and the value returned *)

Section LastLine.

Lemma flat_app (l1 l2 : list string) :
  flat (l1 ++ l2) = (flat l1 ++ flat l2)%string.
Proof.
induction l1 as [|s l1 IH]; simpl; [reflexivity|].
unfold flat in *. simpl. now rewrite IH, append_assoc.
Qed.

Lemma flat_single (s : string) : flat [s] = s.
Proof. unfold flat. simpl. apply append_empty_r. Qed.

Lemma join_suffix (a b : string) :
  exists x, PosixPath.join a b = (x ++ b)%string.
Proof.
unfold PosixPath.join.
destruct (PyStr.startswith b (String PosixPath.sep "")); [now exists ""%string|].
destruct (String.eqb a "" || PyStr.endswith a (String PosixPath.sep ""));
  [now exists a|].
exists (a ++ String PosixPath.sep "")%string. now rewrite append_assoc.
Qed.

(** A text that ends with [.swift] and a newline does not end with the
    message of a tree without duplicates. *)
Lemma swift_line_not_message (out w : string) :
  out = (w ++ ".swift" ++ nl)%string ->
  PyStr.endswith out no_duplicates = false.
Proof.
intros Hout. apply not_true_is_false. intros H.
apply endswith_spec in H as [z Hz]. rewrite Hout in Hz.
assert (H1 : (w ++ ".swift" ++ nl)%string = ((w ++ ".swif") ++ "t" ++ nl)%string)
  by now rewrite append_assoc.
assert (H2 : (z ++ no_duplicates)%string
             = ((z ++ "No duplicate Swift files found") ++ "." ++ nl)%string)
  by (unfold no_duplicates; now rewrite append_assoc).
rewrite H1, H2 in Hz.
apply append_inj_suffix in Hz as [_ Hz]; [|reflexivity].
discriminate Hz.
Qed.

(** The block of a group of recorded paths ends with a line that ends with
    [.swift]. *)
Lemma block_ends_swift (m : list (string * string)) (k : string) :
  (forall q, In (k, q) m -> exists x, q = (x ++ ".swift")%string) ->
  1 <= List.length (paths_named k m) ->
  exists w, block (k, paths_named k m) = (w ++ ".swift" ++ nl)%string.
Proof.
intros Hm Hlen.
destruct (paths_named k m) as [|q0 rest] eqn:E; [simpl in Hlen; lia|].
destruct (exists_last (l := q0 :: rest)) as [ps' [q Hps]]; [discriminate|].
assert (Hq : In (k, q) m).
{ apply paths_named_In. rewrite E, Hps. apply in_or_app. right. now left. }
destruct (Hm q Hq) as [x ->].
rewrite Hps. unfold block. cbn [fst snd].
rewrite map_app, flat_app. cbn [map]. rewrite flat_single. unfold path_line.
exists (nl ++ k ++ ":" ++ nl ++ flat (map path_line ps') ++ "  - " ++ x)%string.
now rewrite !append_assoc.
Qed.

Lemma matching_ends_swift (w : list triple) (k q : string) :
  In (k, q) (matching w) -> exists x, q = (x ++ ".swift")%string.
Proof.
intros H. apply matching_In in H as [root [dirs [files [_ [_ [Hs ->]]]]]].
apply endswith_spec in Hs as [pre ->].
destruct (join_suffix root (pre ++ target_suffix)) as [x ->].
exists (x ++ pre)%string. now rewrite append_assoc.
Qed.

Lemma report_ends_swift (w : list triple) :
  existsb is_duplicate (scan w) = true ->
  exists x, report_of (scan w) = (x ++ ".swift" ++ nl)%string.
Proof.
intros H. unfold report_of. rewrite H.
destruct (filter is_duplicate (scan w)) as [|i0 rest] eqn:E.
- exfalso. apply existsb_exists in H as [item [Hin Hd]].
  assert (Hf : In item (filter is_duplicate (scan w)))
    by (apply filter_In; now split).
  now rewrite E in Hf.
- destruct (exists_last (l := i0 :: rest)) as [l' [[k ps] Hl]]; [discriminate|].
  assert (Hin : In (k, ps) (filter is_duplicate (scan w))).
  { rewrite E, Hl. apply in_or_app. right. now left. }
  apply filter_In in Hin as [Hin _]. rewrite scan_group_by in Hin.
  apply group_by_In in Hin as [Hk ->].
  destruct (block_ends_swift (matching w) k) as [x Hx].
  + intros q. apply matching_ends_swift.
  + now apply paths_named_nonempty.
  + rewrite Hl, map_app, flat_app. cbn [map]. rewrite flat_single, Hx.
    exists (flat (map block l') ++ x)%string. now rewrite append_assoc.
Qed.

End LastLine.

(** X7: the text printed and the value returned agree: the output ends
    with the line [No duplicate Swift files found.] exactly when the scan
    returns [False]; when it returns [True] the last line is a path that
    ends with [.swift]. *)
Theorem message_iff_false (h : host) (project_path : string) :
  (snd (analyze_project h project_path) = false <->
   PyStr.endswith (fst (analyze_project h project_path)) no_duplicates = true)
  /\ (snd (analyze_project h project_path) = true <->
      exists x, fst (analyze_project h project_path)
                = (x ++ ".swift" ++ nl)%string).
Proof.
rewrite analyze_project_report. cbn [fst snd]. unfold groups.
set (w := os_walk h (PosixPath.dirname project_path)).
set (b := banner (PosixPath.join project_path "project.pbxproj")).
assert (Hdup : existsb is_duplicate (scan w) = true ->
               exists x, (b ++ header ++ report_of (scan w))%string
                         = (x ++ ".swift" ++ nl)%string).
{ intros H. destruct (report_ends_swift w H) as [x ->].
  exists (b ++ header ++ x)%string. now rewrite !append_assoc. }
assert (Hnone : existsb is_duplicate (scan w) = false ->
                PyStr.endswith (b ++ header ++ report_of (scan w)) no_duplicates
                = true).
{ intros H. unfold report_of. rewrite H. apply endswith_spec.
  exists (b ++ header)%string. now rewrite append_assoc. }
split; split.
- exact Hnone.
- intros H. destruct (existsb is_duplicate (scan w)) eqn:E; [|reflexivity].
  destruct (Hdup eq_refl) as [x Hx].
  rewrite (swift_line_not_message _ x Hx) in H. discriminate.
- exact Hdup.
- intros [x Hx]. destruct (existsb is_duplicate (scan w)) eqn:E; [reflexivity|].
  rewrite (swift_line_not_message _ x Hx) in Hnone.
  discriminate (Hnone eq_refl).
Qed.

Lemma message_iff_false_witness :
  PyStr.endswith (fst (analyze_project bare_host "/nowhere/App.xcodeproj"))
                 no_duplicates = true.
Proof.
apply (proj1 (message_iff_false bare_host "/nowhere/App.xcodeproj")).
reflexivity.
Defined.

(** ** Scans that find nothing *)

(** X8: a scan root that resolves to something [scandir] cannot list (a
    file, a link that leads nowhere, a directory that is not readable) is
    treated as a tree without files: no error, no group, the message of a
    tree without duplicates, [False]. *)
Theorem unlistable_root_empty_report (h : host) (project_path : string)
        (n : node) :
  h (PosixPath.dirname project_path) = Some n ->
  listable n = false ->
  groups h project_path = []
  /\ analyze_project h project_path =
       ((banner (PosixPath.join project_path "project.pbxproj")
           ++ header ++ no_duplicates)%string,
        false).
Proof.
intros Hroot Hn.
assert (Hg : groups h project_path = []).
{ unfold groups, os_walk. rewrite Hroot.
  destruct n as [nm c|nm t d|nm [|] entries]; try reflexivity.
  discriminate Hn. }
split; [exact Hg|]. now rewrite analyze_project_report, Hg.
Qed.

Lemma unlistable_root_empty_report_witness :
  (fun p : string => Some (File "proj" "not a directory"))
    (PosixPath.dirname "proj/App.xcodeproj")
  = Some (File "proj" "not a directory")
  /\ listable (File "proj" "not a directory") = false
  /\ groups (fun _ => Some (File "proj" "not a directory")) "proj/App.xcodeproj"
     = [].
Proof.
split; [reflexivity|]. split; [reflexivity|].
exact (proj1 (unlistable_root_empty_report
                (fun _ => Some (File "proj" "not a directory"))
                "proj/App.xcodeproj" (File "proj" "not a directory")
                eq_refl eq_refl)).
Defined.

Section NoMatch.

Lemma matching_nil (w : list triple) :
  matching w = [] <->
  forall root dirs files f,
    In (root, dirs, files) w -> In f files ->
    PyStr.endswith f target_suffix = false.
Proof.
split.
- intros Hm root dirs files f Hw Hf. apply not_true_is_false. intros Hs.
  assert (Hin : In (f, PosixPath.join root f) (matching w))
    by (apply matching_In; now exists root, dirs, files).
  now rewrite Hm in Hin.
- intros H. destruct (matching w) as [|[k q] m] eqn:E; [reflexivity|].
  assert (Hin : In (k, q) (matching w)) by (rewrite E; now left).
  apply matching_In in Hin as [root [dirs [files [Hw [Hf [Hs _]]]]]].
  rewrite (H root dirs files k Hw Hf) in Hs. discriminate.
Qed.

Lemma group_by_nil (m : list (string * string)) :
  group_by m = [] <-> m = [].
Proof.
split; [|now intros ->].
destruct m as [|[k q] m]; [reflexivity | discriminate].
Qed.

End NoMatch.

(** X9: the scan builds no group exactly when no name the walk yields
    among the files ends with [.swift] (an empty tree, or a tree of other
    files); it then prints the message of a tree without duplicates and
    returns [False]. *)
Theorem no_matching_file (h : host) (project_path : string) :
  (groups h project_path = [] <->
   forall root dirs files f,
     In (root, dirs, files) (os_walk h (PosixPath.dirname project_path)) ->
     In f files ->
     PyStr.endswith f target_suffix = false)
  /\ (groups h project_path = [] ->
      analyze_project h project_path =
        ((banner (PosixPath.join project_path "project.pbxproj")
            ++ header ++ no_duplicates)%string,
         false)).
Proof.
split.
- unfold groups. rewrite scan_group_by, group_by_nil. apply matching_nil.
- intros Hg. now rewrite analyze_project_report, Hg.
Qed.

Lemma no_matching_file_witness :
  analyze_project
    (fun _ => Some (Dir "docs" true [ File "README.md" "";
                                      Dir "empty" true [] ]))
    "docs/App.xcodeproj"
  = ((banner "docs/App.xcodeproj/project.pbxproj" ++ header ++ no_duplicates)%string,
     false).
Proof.
apply (proj2 (no_matching_file
                (fun _ => Some (Dir "docs" true [ File "README.md" "";
                                                  Dir "empty" true [] ]))
                "docs/App.xcodeproj")).
reflexivity.
Defined.
